(** * Daily per-customer log statistics: a shallow embedding of
      [logs/app/log_processor.py] and [logs/app/api.py].

    Conventions of the embedding.
    - A Python [str] is a list of characters with code points below 256
      ([list ascii]); lines holding other code points are outside the model.
    - A Python [float] is idealised as an exact rational ([Q]): rounding,
      overflow and the non-finite values are not modelled.  Where the code
      can produce a non-finite float (the spellings [inf] and [nan] given to
      [float()]) the embedding answers [OutOfModel] instead of inventing a
      value.  Equalities between floats are stated with [==].
    - A [datetime] carries the civil fields the code reads; the time zone is
      always UTC and the microsecond field is always 0 in this program.
    - Exceptions are values of [exn]; fallible code lives in [result]. *)

From Stdlib Require Import ZArith QArith Qround Qpower Lia List Bool Ascii String.
From Stdlib Require Import Permutation Sorted.
Import ListNotations.

Open Scope Z_scope.

(** ** Python values and exceptions *)

Definition str := list ascii.

Definition float := Q.

Inductive exn : Type :=
| IndexError
| ValueError
| StatisticsError
| HTTPException (status_code : Z) (detail : string).

Inductive result (A : Type) : Type :=
| Ok (a : A)
| Raise (e : exn)
| OutOfModel.

Arguments Ok {A} a.
Arguments Raise {A} e.
Arguments OutOfModel {A}.

Definition bind {A B : Type} (r : result A) (k : A -> result B) : result B :=
  match r with
  | Ok a => k a
  | Raise e => Raise e
  | OutOfModel => OutOfModel
  end.

Notation "x <- r ;; k" := (bind r (fun x => k))
  (at level 61, r at next level, right associativity).

(** [max(a, b)] and [min(a, b)] of Python on two arguments: the first
    argument is kept unless the second is strictly better. *)
Definition Qlt_bool (a b : Q) : bool := negb (Qle_bool b a).

Definition py_max (a b : Q) : Q := if Qlt_bool a b then b else a.
Definition py_min (a b : Q) : Q := if Qlt_bool b a then b else a.

(** ** datetime *)

Record datetime : Type := mk_datetime {
  year : Z; month : Z; day : Z;
  hour : Z; minute : Z; second : Z
}.

Definition is_leap (y : Z) : bool :=
  (y mod 4 =? 0) && (negb (y mod 100 =? 0) || (y mod 400 =? 0)).

Definition days_before_year (y : Z) : Z :=
  let y1 := y - 1 in y1 * 365 + y1 / 4 - y1 / 100 + y1 / 400.

Definition days_in_month (y m : Z) : Z :=
  if (m =? 2) && is_leap y then 29
  else nth (Z.to_nat m) [-1; 31; 28; 31; 30; 31; 30; 31; 31; 30; 31; 30; 31] (-1).

Definition days_before_month (y m : Z) : Z :=
  nth (Z.to_nat m) [-1; 0; 31; 59; 90; 120; 151; 181; 212; 243; 273; 304; 334] (-1)
  + (if (2 <? m) && is_leap y then 1 else 0).

Definition ymd2ord (y m d : Z) : Z :=
  days_before_year y + days_before_month y m + d.

Definition toordinal (t : datetime) : Z := ymd2ord (year t) (month t) (day t).

Record timedelta : Type := mk_timedelta { td_days : Z; td_seconds : Z }.

(** [timedelta(days, seconds)] normalises the seconds into [0, 86400). *)
Definition new_timedelta (days seconds : Z) : timedelta :=
  {| td_days := days + seconds / 86400; td_seconds := seconds mod 86400 |}.

(** [a - b] on two aware datetimes of the same zone. *)
Definition datetime_sub (a b : datetime) : timedelta :=
  let secs1 := second a + minute a * 60 + hour a * 3600 in
  let secs2 := second b + minute b * 60 + hour b * 3600 in
  new_timedelta (toordinal a - toordinal b) (secs1 - secs2).

Definition total_seconds (d : timedelta) : float :=
  inject_Z (td_days d * 86400 + td_seconds d).

(** Seconds since the start of ordinal day 0, used to state properties. *)
Definition instant (t : datetime) : Z :=
  toordinal t * 86400 + hour t * 3600 + minute t * 60 + second t.

(** ** LogEntry and the uptime estimator *)

Record LogEntry : Type := mk_LogEntry {
  timestamp : datetime;
  customer_id : str;
  request_path : str;
  status_code : Z;
  duration : float
}.

Definition is_error (entry : LogEntry) : bool :=
  (500 <=? status_code entry) && (status_code entry <? 600).

Definition total_duration : Z := 24 * 60 * 60.

(** One iteration of the loop of [calculate_uptime_percentage]; the state is
    the pair of the local variables [downtime] and [down_start]. *)
Definition uptime_loop_body (st : float * option datetime) (entry : LogEntry)
  : float * option datetime :=
  let '(downtime, down_start) := st in
  match is_error entry, down_start with
  | true, None => (downtime, Some (timestamp entry))
  | false, Some ds =>
      ((downtime + total_seconds (datetime_sub (timestamp entry) ds))%Q, None)
  | _, _ => (downtime, down_start)
  end.

Definition calculate_uptime_percentage (entries : list LogEntry) : float :=
  match entries with
  | [] => 100%Q
  | e0 :: _ =>
      let '(downtime, down_start) :=
        fold_left uptime_loop_body entries (0%Q, None) in
      let downtime :=
        match down_start with
        | Some ds =>
            (downtime
             + total_seconds (datetime_sub (timestamp (last entries e0)) ds))%Q
        | None => downtime
        end in
      let uptime_percentage :=
        (((inject_Z total_duration - downtime) / inject_Z total_duration)
         * 100)%Q in
      py_max 0%Q (py_min 100%Q uptime_percentage)
  end.

(** ** The estimator as the specification words it: a two-state machine *)

Module Estimator.

Inductive state : Type :=
| NotDown (downtime : Q)
| Down (downtime : Q) (down_start : Z).

Definition erroring (status : Z) : Prop := 500 <= status < 600.

(** The events are seen as pairs of an instant and a status code. *)
Inductive step : state -> Z * Z -> state -> Prop :=
| enter_down : forall acc t status,
    erroring status ->
    step (NotDown acc) (t, status) (Down acc t)
| stay_up : forall acc t status,
    ~ erroring status ->
    step (NotDown acc) (t, status) (NotDown acc)
| stay_down : forall acc since t status,
    erroring status ->
    step (Down acc since) (t, status) (Down acc since)
| leave_down : forall acc since t status,
    ~ erroring status ->
    step (Down acc since) (t, status)
         (NotDown (acc + inject_Z (t - since))%Q).

Inductive run : state -> list (Z * Z) -> state -> Prop :=
| run_nil : forall s, run s [] s
| run_cons : forall s ev s' evs s'',
    step s ev s' -> run s' evs s'' -> run s (ev :: evs) s''.

(** Downtime once the bucket ends, [t_last] being the last event's instant. *)
Definition closing_downtime (s : state) (t_last : Z) : Q :=
  match s with
  | NotDown acc => acc
  | Down acc since => (acc + inject_Z (t_last - since))%Q
  end.

Definition clamp (x lo hi : Q) : Q :=
  if Qlt_le_dec x lo then lo else if Qlt_le_dec hi x then hi else x.

Definition uptime_of_downtime (downtime_seconds : Q) : Q :=
  clamp (((86400 - downtime_seconds) / 86400) * 100)%Q 0%Q 100%Q.

End Estimator.

Definition event_of (entry : LogEntry) : Z * Z :=
  (instant (timestamp entry), status_code entry).

(** The loop variables [(downtime, down_start)] represent a machine state. *)
Definition represents (st : float * option datetime) (s : Estimator.state) : Prop :=
  match st, s with
  | (downtime, None), Estimator.NotDown acc => (downtime == acc)%Q
  | (downtime, Some ds), Estimator.Down acc since =>
      (downtime == acc)%Q /\ instant ds = since
  | _, _ => False
  end.

(** ** Rendering of numbers in dates *)

Definition digit_char (d : Z) : ascii := ascii_of_N (Z.to_N (48 + d)).

Definition zfill2 (n : Z) : str := [digit_char (n / 10); digit_char (n mod 10)].

Definition zfill4 (n : Z) : str :=
  [digit_char (n / 1000); digit_char (n / 100 mod 10);
   digit_char (n / 10 mod 10); digit_char (n mod 10)].

Definition lit (s : string) : str := list_ascii_of_string s.

(** [t.strftime("%Y-%m-%d")], the year written on four digits. *)
Definition strftime_ymd (t : datetime) : str :=
  zfill4 (year t) ++ lit "-" ++ zfill2 (month t) ++ lit "-" ++ zfill2 (day t).

(** ** Library functions on lists of floats *)

(** [sorted(data)]: a stable sort, here by insertion. *)
Fixpoint insert_by {A : Type} (leb : A -> A -> bool) (x : A) (l : list A) : list A :=
  match l with
  | [] => [x]
  | y :: l' => if leb x y then x :: l else y :: insert_by leb x l'
  end.

Definition sorted_by {A : Type} (leb : A -> A -> bool) (l : list A) : list A :=
  fold_right (insert_by leb) [] l.

Definition sorted (data : list float) : list float := sorted_by Qle_bool data.

Definition fsum (data : list float) : float := fold_right Qplus 0%Q data.

Definition len {A : Type} (l : list A) : Z := Z.of_nat (List.length l).

(** [data[i]] for an index known to be in range. *)
Definition item (data : list float) (i : Z) : float := nth (Z.to_nat i) data 0%Q.

(** [statistics.mean]: the exact sum divided by the count. *)
Definition mean (data : list float) : result float :=
  match data with
  | [] => Raise StatisticsError
  | _ => Ok (fsum data / inject_Z (len data))%Q
  end.

(** [statistics.median]. *)
Definition median (data : list float) : result float :=
  let data := sorted data in
  let n := len data in
  if n =? 0 then Raise StatisticsError
  else if n mod 2 =? 1 then Ok (item data (n / 2))
  else let i := n / 2 in Ok ((item data (i - 1) + item data i) / 2)%Q.

(** [numpy.percentile(a, q)] with the default method (linear interpolation
    between the closest ranks).  On an empty array numpy answers [nan]. *)
Definition percentile (a : list float) (q : Q) : result float :=
  let arr := sorted a in
  let n := len arr in
  if n =? 0 then OutOfModel
  else
    let virtual_index := (inject_Z (n - 1) * (q / 100))%Q in
    let previous := Qfloor virtual_index in
    let next := Z.min (previous + 1) (n - 1) in
    let gamma := (virtual_index - inject_Z previous)%Q in
    Ok (item arr previous + (item arr next - item arr previous) * gamma)%Q.

(** ** DailyStats *)

Module DailyStats.

Record t : Type := mk {
  customer_id : str;
  date : datetime;
  successful_requests : Z;
  failed_requests : Z;
  uptime_percentage : float;
  latencies : list float
}.

(** The constructor with the defaults of the dataclass. *)
Definition new (customer_id : str) (date : datetime) : t :=
  mk customer_id date 0 0 100%Q [].

Definition avg_latency (self : t) : result float :=
  match latencies self with
  | [] => Ok 0%Q
  | _ => mean (latencies self)
  end.

Definition median_latency (self : t) : result float :=
  match latencies self with
  | [] => Ok 0%Q
  | _ => median (latencies self)
  end.

Definition p99_latency (self : t) : result float :=
  match latencies self with
  | [] => Ok 0%Q
  | _ => percentile (latencies self) 99
  end.

End DailyStats.

(** The mapping returned by [format_stats]. *)
Module StatsDict.

Record t : Type := mk {
  customer_id : str;
  date : str;
  successful_requests : Z;
  failed_requests : Z;
  uptime_percentage : float;
  avg_latency : float;
  median_latency : float;
  p99_latency : float
}.

End StatsDict.

Definition is_success (entry : LogEntry) : bool :=
  (200 <=? status_code entry) && (status_code entry <? 300).

(** The body of the [for entry in entries] loop of [format_stats]. *)
Definition format_stats_loop_body (daily_stats : DailyStats.t) (entry : LogEntry)
  : DailyStats.t :=
  let daily_stats :=
    if is_success entry
    then DailyStats.mk (DailyStats.customer_id daily_stats)
           (DailyStats.date daily_stats)
           (DailyStats.successful_requests daily_stats + 1)
           (DailyStats.failed_requests daily_stats)
           (DailyStats.uptime_percentage daily_stats)
           (DailyStats.latencies daily_stats)
    else DailyStats.mk (DailyStats.customer_id daily_stats)
           (DailyStats.date daily_stats)
           (DailyStats.successful_requests daily_stats)
           (DailyStats.failed_requests daily_stats + 1)
           (DailyStats.uptime_percentage daily_stats)
           (DailyStats.latencies daily_stats) in
  DailyStats.mk (DailyStats.customer_id daily_stats)
    (DailyStats.date daily_stats)
    (DailyStats.successful_requests daily_stats)
    (DailyStats.failed_requests daily_stats)
    (DailyStats.uptime_percentage daily_stats)
    (DailyStats.latencies daily_stats ++ [duration entry]).

(** [format_stats]; [now] stands for [datetime.now(timezone.utc)], read only
    when the window holds no entry.  The argument is the item sent down by
    the window operator: the key, the window id and the collected entries. *)
Definition format_stats (now : datetime) (key_stats : str * (Z * list LogEntry))
  : result StatsDict.t :=
  let '(key, stats) := key_stats in
  let '(offset, entries) := stats in
  let daily_stats :=
    DailyStats.new
      (match entries with e0 :: _ => customer_id e0 | [] => lit "" end)
      (match entries with e0 :: _ => timestamp e0 | [] => now end) in
  let daily_stats :=
    DailyStats.mk (DailyStats.customer_id daily_stats)
      (DailyStats.date daily_stats)
      (DailyStats.successful_requests daily_stats)
      (DailyStats.failed_requests daily_stats)
      (calculate_uptime_percentage entries)
      (DailyStats.latencies daily_stats) in
  let daily_stats := fold_left format_stats_loop_body entries daily_stats in
  avg <- DailyStats.avg_latency daily_stats ;;
  med <- DailyStats.median_latency daily_stats ;;
  p99 <- DailyStats.p99_latency daily_stats ;;
  Ok (StatsDict.mk
        (DailyStats.customer_id daily_stats)
        (strftime_ymd (DailyStats.date daily_stats))
        (DailyStats.successful_requests daily_stats)
        (DailyStats.failed_requests daily_stats)
        (DailyStats.uptime_percentage daily_stats)
        avg med p99).




Definition ts_le (a b : LogEntry) : Prop :=
  instant (timestamp a) <= instant (timestamp b).

(** Sample entries: the lines of the repository's test for customer 2, and
    entries used to exhibit order dependence. *)
Definition entry_at (s : Z) (status : Z) : LogEntry :=
  mk_LogEntry (mk_datetime 2024 10 26 3 9 s) (lit "cust_2")
    (lit "/api/v1/resource1") status 1%Q.

Definition midnight : datetime := mk_datetime 2024 11 7 0 0 0.

(** A float-valued call returns normally, with a value equal to [v]. *)
Definition returns (r : result float) (v : Q) : Prop :=
  exists x, r = Ok x /\ (x == v)%Q.

Definition stats_with (latencies : list float) : DailyStats.t :=
  DailyStats.mk (lit "cust_1") midnight 0 0 100%Q latencies.

(** ** Strings: whitespace, [strip], [split], indexing *)

Definition code (c : ascii) : Z := Z.of_N (N_of_ascii c).

(** [c.isspace()] for a code point below 256. *)
Definition is_space (c : ascii) : bool :=
  let n := code c in
  ((9 <=? n) && (n <=? 13)) || ((28 <=? n) && (n <=? 32))
  || (n =? 133) || (n =? 160).

Fixpoint lstrip (s : str) : str :=
  match s with
  | [] => []
  | c :: rest => if is_space c then lstrip rest else s
  end.

Definition strip (s : str) : str := rev (lstrip (rev (lstrip s))).

(** [s.split()]: the maximal runs of characters that are not whitespace.
    [word] is the run being read. *)
Fixpoint split_from (word : str) (s : str) : list str :=
  match s with
  | [] => match word with [] => [] | _ => [word] end
  | c :: rest =>
      if is_space c
      then match word with
           | [] => split_from [] rest
           | _ => word :: split_from [] rest
           end
      else split_from (word ++ [c]) rest
  end.

Definition split (s : str) : list str := split_from [] s.

(** [parts[i]] for a non-negative literal index. *)
Definition getitem (parts : list str) (i : nat) : result str :=
  match nth_error parts i with
  | Some p => Ok p
  | None => Raise IndexError
  end.

(** ** [int()] and [float()] on strings *)

Definition digit_value (c : ascii) : option Z :=
  let n := code c in
  if (48 <=? n) && (n <=? 57) then Some (n - 48) else None.

Definition is_digit (c : ascii) : bool :=
  match digit_value c with Some _ => true | None => false end.

Definition is_char (x : string) (c : ascii) : bool :=
  match x with
  | String a EmptyString => Ascii.eqb a c
  | _ => false
  end.

(** The digits of a run of decimal digits in which single underscores may
    separate digits; [None] when the whole string is not such a run. *)
Fixpoint scan_digits (prev_is_digit : bool) (s : str) : option (list Z) :=
  match s with
  | [] => if prev_is_digit then Some [] else None
  | c :: rest =>
      if is_char "_" c
      then if prev_is_digit then scan_digits false rest else None
      else match digit_value c with
           | Some d =>
               match scan_digits true rest with
               | Some ds => Some (d :: ds)
               | None => None
               end
           | None => None
           end
  end.

Definition digits_value (ds : list Z) : Z :=
  fold_left (fun acc d => 10 * acc + d) ds 0.

(** An optional sign: the factor and the remainder. *)
Definition take_sign (s : str) : Z * str :=
  match s with
  | c :: rest =>
      if is_char "-" c then (-1, rest)
      else if is_char "+" c then (1, rest)
      else (1, s)
  | [] => (1, s)
  end.

(** The default of [sys.int_info.default_max_str_digits]. *)
Definition max_str_digits : Z := 4300.

(** [int(s)] for a string, base 10. *)
Definition py_int (s : str) : result Z :=
  let '(sign, body) := take_sign (strip s) in
  match scan_digits false body with
  | Some ds =>
      if max_str_digits <? len ds then Raise ValueError
      else Ok (sign * digits_value ds)
  | None => Raise ValueError
  end.

(** Underscores of a float literal: each must stand between two digits;
    they are removed before the number is read. *)
Fixpoint remove_underscores (prev : option ascii) (s : str) : option str :=
  match s with
  | [] =>
      match prev with
      | Some p => if is_char "_" p then None else Some []
      | None => Some []
      end
  | c :: rest =>
      if is_char "_" c
      then match prev with
           | Some p => if is_digit p then remove_underscores (Some c) rest
                       else None
           | None => None
           end
      else
        let bad :=
          match prev with
          | Some p => is_char "_" p && negb (is_digit c)
          | None => false
          end in
        if bad then None
        else match remove_underscores (Some c) rest with
             | Some r => Some (c :: r)
             | None => None
             end
  end.

(** The longest prefix of digits, with the remainder. *)
Fixpoint take_digits (s : str) : list Z * str :=
  match s with
  | c :: rest =>
      match digit_value c with
      | Some d => let '(ds, r) := take_digits rest in (d :: ds, r)
      | None => ([], s)
      end
  | [] => ([], [])
  end.

Definition lower (c : ascii) : ascii :=
  let n := code c in
  if (65 <=? n) && (n <=? 90) then ascii_of_N (Z.to_N (n + 32)) else c.

Definition is_inf_or_nan (body : str) : bool :=
  let l := map lower body in
  if list_eq_dec ascii_dec l (lit "inf") then true
  else if list_eq_dec ascii_dec l (lit "infinity") then true
  else if list_eq_dec ascii_dec l (lit "nan") then true
  else false.

(** The exponent part: empty, or [e] or [E], an optional sign and at least
    one digit, up to the end of the string. *)
Definition read_exponent (s : str) : option Z :=
  match s with
  | [] => Some 0
  | c :: rest =>
      if is_char "e" c || is_char "E" c
      then let '(sign, r) := take_sign rest in
           match take_digits r with
           | (d :: ds, []) => Some (sign * digits_value (d :: ds))
           | _ => None
           end
      else None
  end.

(** A decimal literal: digits, an optional point and digits, at least one
    digit in all, and an optional exponent. *)
Definition read_decimal (s : str) : option Q :=
  let '(ip, r1) := take_digits s in
  let '(fp, r2) :=
    match r1 with
    | c :: rest => if is_char "." c then take_digits rest else ([], r1)
    | [] => ([], r1)
    end in
  match ip ++ fp with
  | [] => None
  | _ =>
      match read_exponent r2 with
      | Some e =>
          Some (inject_Z (digits_value (ip ++ fp))
                * Qpower 10 (e - len fp))%Q
      | None => None
      end
  end.

(** [float(s)] for a string.  The spellings of infinity and of not-a-number
    are accepted by Python and have no rational value. *)
Definition py_float (s : str) : result float :=
  match remove_underscores None s with
  | None => Raise ValueError
  | Some s1 =>
      let '(sign, body) := take_sign (strip s1) in
      if is_inf_or_nan body then OutOfModel
      else match read_decimal body with
           | Some q => Ok (inject_Z sign * q)%Q
           | None => Raise ValueError
           end
  end.

(** ** [datetime.strptime] *)

(** The directives and literals of a format string. *)
Inductive directive : Type :=
| dY | dm | dd | dH | dM | dS
| Lit (c : ascii)
| Blank.

(** ["%Y-%m-%d %H:%M:%S"] and ["%Y-%m-%d"]. *)
Definition format_ymd_hms : list directive :=
  [dY; Lit "-"; dm; Lit "-"; dd; Blank; dH; Lit ":"; dM; Lit ":"; dS].

Definition format_ymd : list directive := [dY; Lit "-"; dm; Lit "-"; dd].

(** Regular expressions are matched with backtracking: a matcher lists its
    matches in the order the regular-expression engine tries them, each with
    the value read and the remainder of the string. *)
Definition digit_in (lo hi : Z) (c : ascii) : option Z :=
  match digit_value c with
  | Some v => if (lo <=? v) && (v <=? hi) then Some v else None
  | None => None
  end.

Definition re_one (lo hi : Z) (s : str) : list (Z * str) :=
  match s with
  | c :: rest =>
      match digit_in lo hi c with
      | Some a => [(a, rest)]
      | None => []
      end
  | [] => []
  end.

Definition re_two (lo1 hi1 lo2 hi2 : Z) (s : str) : list (Z * str) :=
  match s with
  | c1 :: c2 :: rest =>
      match digit_in lo1 hi1 c1, digit_in lo2 hi2 c2 with
      | Some a, Some b => [(10 * a + b, rest)]
      | _, _ => []
      end
  | _ => []
  end.

(** [\d\d\d\d] *)
Definition re_Y (s : str) : list (Z * str) :=
  match s with
  | c1 :: c2 :: c3 :: c4 :: rest =>
      match digit_value c1, digit_value c2, digit_value c3, digit_value c4 with
      | Some a, Some b, Some c, Some d =>
          [(1000 * a + 100 * b + 10 * c + d, rest)]
      | _, _, _, _ => []
      end
  | _ => []
  end.

(** [1[0-2]|0[1-9]|[1-9]] *)
Definition re_m (s : str) : list (Z * str) :=
  re_two 1 1 0 2 s ++ re_two 0 0 1 9 s ++ re_one 1 9 s.

(** [3[0-1]|[1-2]\d|0[1-9]|[1-9]| [1-9]] *)
Definition re_d (s : str) : list (Z * str) :=
  re_two 3 3 0 1 s ++ re_two 1 2 0 9 s ++ re_two 0 0 1 9 s ++ re_one 1 9 s
  ++ match s with
     | c :: rest => if is_char " " c then re_one 1 9 rest else []
     | [] => []
     end.

(** [2[0-3]|[0-1]\d|\d] *)
Definition re_H (s : str) : list (Z * str) :=
  re_two 2 2 0 3 s ++ re_two 0 1 0 9 s ++ re_one 0 9 s.

(** [[0-5]\d|\d] *)
Definition re_M (s : str) : list (Z * str) :=
  re_two 0 5 0 9 s ++ re_one 0 9 s.

(** [6[0-1]|[0-5]\d|\d] *)
Definition re_S (s : str) : list (Z * str) :=
  re_two 6 6 0 1 s ++ re_two 0 5 0 9 s ++ re_one 0 9 s.

(** [\s+], the longest run first. *)
Fixpoint re_blank (s : str) : list str :=
  match s with
  | c :: rest => if is_space c then re_blank rest ++ [rest] else []
  | [] => []
  end.

(** The groups found, with the defaults of [_strptime]. *)
Definition found_default : datetime := mk_datetime 1900 1 1 0 0 0.

Definition match_directive (d : directive) (acc : datetime) (s : str)
  : list (datetime * str) :=
  let set (f : Z -> datetime) (l : list (Z * str)) :=
    map (fun vr => (f (fst vr), snd vr)) l in
  match d with
  | dY => set (fun v => mk_datetime v (month acc) (day acc)
                          (hour acc) (minute acc) (second acc)) (re_Y s)
  | dm => set (fun v => mk_datetime (year acc) v (day acc)
                          (hour acc) (minute acc) (second acc)) (re_m s)
  | dd => set (fun v => mk_datetime (year acc) (month acc) v
                          (hour acc) (minute acc) (second acc)) (re_d s)
  | dH => set (fun v => mk_datetime (year acc) (month acc) (day acc)
                          v (minute acc) (second acc)) (re_H s)
  | dM => set (fun v => mk_datetime (year acc) (month acc) (day acc)
                          (hour acc) v (second acc)) (re_M s)
  | dS => set (fun v => mk_datetime (year acc) (month acc) (day acc)
                          (hour acc) (minute acc) v) (re_S s)
  | Lit c =>
      match s with
      | c' :: rest => if Ascii.eqb c c' then [(acc, rest)] else []
      | [] => []
      end
  | Blank => map (fun r => (acc, r)) (re_blank s)
  end.

Fixpoint match_format (format : list directive) (acc : datetime) (s : str)
  : list (datetime * str) :=
  match format with
  | [] => [(acc, s)]
  | d :: format' =>
      flat_map (fun m => match_format format' (fst m) (snd m))
               (match_directive d acc s)
  end.

(** The checks of the [date] and [datetime] constructors. *)
Definition valid_datetime (t : datetime) : bool :=
  (1 <=? year t) && (year t <=? 9999)
  && (1 <=? month t) && (month t <=? 12)
  && (1 <=? day t) && (day t <=? days_in_month (year t) (month t))
  && (0 <=? hour t) && (hour t <=? 23)
  && (0 <=? minute t) && (minute t <=? 59)
  && (0 <=? second t) && (second t <=? 59).

(** [datetime.strptime(data_string, format)]: the first match of the format's
    regular expression must cover the whole string and name a valid date and
    time. *)
Definition strptime (data_string : str) (format : list directive)
  : result datetime :=
  match match_format format found_default data_string with
  | [] => Raise ValueError
  | (found, rest) :: _ =>
      match rest with
      | _ :: _ => Raise ValueError
      | [] => if valid_datetime found then Ok found else Raise ValueError
      end
  end.

(** ** parse_log_line *)

(** [try: body except (IndexError, ValueError): return None]. *)
Definition try_except_index_value {A : Type} (body : result A)
  : result (option A) :=
  match body with
  | Ok a => Ok (Some a)
  | Raise IndexError => Ok None
  | Raise ValueError => Ok None
  | Raise e => Raise e
  | OutOfModel => OutOfModel
  end.

Definition parse_log_line (line : str) : result (option LogEntry) :=
  try_except_index_value
    (let parts := split (strip line) in
     p0 <- getitem parts 0 ;;
     p1 <- getitem parts 1 ;;
     timestamp <- strptime (p0 ++ lit " " ++ p1) format_ymd_hms ;;
     p2 <- getitem parts 2 ;;
     p3 <- getitem parts 3 ;;
     p4 <- getitem parts 4 ;;
     status_code <- py_int p4 ;;
     p5 <- getitem parts 5 ;;
     duration <- py_float p5 ;;
     Ok (mk_LogEntry timestamp p2 p3 status_code duration)).

(** The [parse] and [valid] steps of the dataflow over the lines read so far:
    the entries that reach the windows. *)
Fixpoint valid_entries (lines : list str) : result (list LogEntry) :=
  match lines with
  | [] => Ok []
  | line :: rest =>
      parsed <- parse_log_line line ;;
      entries <- valid_entries rest ;;
      Ok (match parsed with
          | Some entry => entry :: entries
          | None => entries
          end)
  end.

(** ** The table [customerdailystats] *)

Record date : Type := mk_date { date_year : Z; date_month : Z; date_day : Z }.

(** [t.date()] *)
Definition date_of (t : datetime) : date := mk_date (year t) (month t) (day t).

Definition date_eqb (a b : date) : bool :=
  (date_year a =? date_year b) && (date_month a =? date_month b)
  && (date_day a =? date_day b).

(** [a >= b] on dates: the order of (year, month, day). *)
Definition date_geb (a b : date) : bool :=
  (date_year b <? date_year a)
  || ((date_year a =? date_year b)
      && ((date_month b <? date_month a)
          || ((date_month a =? date_month b) && (date_day b <=? date_day a)))).

Definition str_eqb (a b : str) : bool :=
  if list_eq_dec ascii_dec a b then true else false.

Module CustomerDailyStats.

Record t : Type := mk {
  id : Z;
  customer_id : str;
  date : date;
  successful_requests : Z;
  failed_requests : Z;
  uptime_percentage : float;
  avg_latency : float;
  median_latency : float;
  p99_latency : float
}.

End CustomerDailyStats.

(** The stored state: the rows of the table and the next value of the
    sequence behind the primary key. *)
Record database : Type := mk_database {
  rows : list CustomerDailyStats.t;
  next_id : Z
}.

(** Every primary key was drawn from the sequence. *)
Definition well_formed (db : database) : Prop :=
  Forall (fun r => CustomerDailyStats.id r < next_id db) (rows db).

Definition has_key (customer_id : str) (d : date) (r : CustomerDailyStats.t)
  : bool :=
  str_eqb (CustomerDailyStats.customer_id r) customer_id
  && date_eqb (CustomerDailyStats.date r) d.

(** The [setattr] loop of [save_to_database]: every key of the mapping other
    than customer_id and date is written to the existing row. *)
Definition overwrite (existing : CustomerDailyStats.t) (stats_dict : StatsDict.t)
  : CustomerDailyStats.t :=
  CustomerDailyStats.mk
    (CustomerDailyStats.id existing)
    (CustomerDailyStats.customer_id existing)
    (CustomerDailyStats.date existing)
    (StatsDict.successful_requests stats_dict)
    (StatsDict.failed_requests stats_dict)
    (StatsDict.uptime_percentage stats_dict)
    (StatsDict.avg_latency stats_dict)
    (StatsDict.median_latency stats_dict)
    (StatsDict.p99_latency stats_dict).

(** The row built from the mapping, with the primary key it gets when it is
    inserted. *)
Definition db_stats_of (id : Z) (d : date) (stats_dict : StatsDict.t)
  : CustomerDailyStats.t :=
  CustomerDailyStats.mk id
    (StatsDict.customer_id stats_dict) d
    (StatsDict.successful_requests stats_dict)
    (StatsDict.failed_requests stats_dict)
    (StatsDict.uptime_percentage stats_dict)
    (StatsDict.avg_latency stats_dict)
    (StatsDict.median_latency stats_dict)
    (StatsDict.p99_latency stats_dict).

(** [save_to_database]: the session's query, the update of the row found
    (by primary key) or the insertion, and the commit. *)
Definition save_to_database (db : database) (stats_dict : StatsDict.t)
  : result database :=
  t <- strptime (StatsDict.date stats_dict) format_ymd ;;
  let d := date_of t in
  let existing :=
    find (has_key (StatsDict.customer_id stats_dict) d) (rows db) in
  match existing with
  | Some existing =>
      let updated := overwrite existing stats_dict in
      Ok (mk_database
            (map (fun r =>
                    if CustomerDailyStats.id r =? CustomerDailyStats.id existing
                    then updated else r)
                 (rows db))
            (next_id db))
  | None =>
      Ok (mk_database
            (rows db ++ [db_stats_of (next_id db) d stats_dict])
            (next_id db + 1))
  end.

(** ** The read endpoint *)

(** [get_customer_stats]; a [date] is always true in [if from_:]. *)
Definition get_customer_stats (db : database) (customer_id : str)
           (from_ : option date) : result (list CustomerDailyStats.t) :=
  let query := fun r => str_eqb (CustomerDailyStats.customer_id r) customer_id in
  let query :=
    match from_ with
    | Some f => fun r => query r && date_geb (CustomerDailyStats.date r) f
    | None => query
    end in
  let results := filter query (rows db) in
  match results with
  | [] => Raise (HTTPException 404 "No stats found for customer")
  | _ => Ok results
  end.

(** The records of a customer. *)
Definition records_of (db : database) (customer_id : str)
  : list CustomerDailyStats.t :=
  filter (fun r => str_eqb (CustomerDailyStats.customer_id r) customer_id)
         (rows db).

Definition sample_row : CustomerDailyStats.t :=
  CustomerDailyStats.mk 1 (lit "cust_1") (mk_date 2024 10 26) 2 1 100%Q
    0.75%Q 0.75%Q 0.995%Q.

Definition sample_stats : StatsDict.t :=
  StatsDict.mk (lit "cust_1") (lit "2024-10-26") 2 1 100%Q 0.75%Q 0.75%Q 0.995%Q.

(** ** Well-formed and malformed lines *)




(** A field: a non-empty string without whitespace. *)
Definition is_field (w : str) : Prop :=
  w <> [] /\ Forall (fun c => is_space c = false) w.









From Stdlib Require Import Lqa.

(** ** Further definitions: the estimator on ordered entries *)

(** The downtime the loop state stands for when the bucket is closed at the
    instant [t]. *)
Definition closed_downtime (z : Z) (down_start : option datetime) (t : Z) : Z :=
  match down_start with
  | Some ds => z + (t - instant ds)
  | None => z
  end.

(** Two entries seen alike by the estimator, the second [k] seconds later. *)
Definition same_event_shifted (k : Z) (a b : LogEntry) : Prop :=
  instant (timestamp b) = instant (timestamp a) + k
  /\ is_error b = is_error a.

(** ** Further definitions: keys and windows of the dataflow *)

(** [str(d)] for a date: [d.isoformat()], that is ["%04d-%02d-%02d"]. *)
Definition date_isoformat (d : date) : str :=
  zfill4 (date_year d) ++ lit "-" ++ zfill2 (date_month d) ++ lit "-"
  ++ zfill2 (date_day d).

(** The step [customer_date_event] of [build_dataflow]. *)
Definition customer_date_event (entry : LogEntry) : str * LogEntry :=
  (customer_id entry ++ lit "_" ++ date_isoformat (date_of (timestamp entry)),
   entry).

(** ** Further definitions: constraints of the table *)

(** The primary key constraint: no two rows share an id. *)
Definition unique_ids (db : database) : Prop :=
  NoDup (map CustomerDailyStats.id (rows db)).

(** The unique index of the migration on (customer_id, date). *)
Definition key_of (r : CustomerDailyStats.t) : str * date :=
  (CustomerDailyStats.customer_id r, CustomerDailyStats.date r).

Definition unique_keys (db : database) : Prop :=
  NoDup (map key_of (rows db)).

(** A row holds the measures of a mapping. *)
Definition holds_measures (r : CustomerDailyStats.t) (stats_dict : StatsDict.t)
  : Prop :=
  CustomerDailyStats.successful_requests r
  = StatsDict.successful_requests stats_dict
  /\ CustomerDailyStats.failed_requests r = StatsDict.failed_requests stats_dict
  /\ CustomerDailyStats.uptime_percentage r
     = StatsDict.uptime_percentage stats_dict
  /\ CustomerDailyStats.avg_latency r = StatsDict.avg_latency stats_dict
  /\ CustomerDailyStats.median_latency r = StatsDict.median_latency stats_dict
  /\ CustomerDailyStats.p99_latency r = StatsDict.p99_latency stats_dict.

(** ** Further definitions: order of timestamps and windows *)

(** [a < b] on two datetimes of the same zone: the order of the tuples
    (year, month, day, hour, minute, second). *)
Definition datetime_lt (a b : datetime) : Prop :=
  year a < year b
  \/ (year a = year b
      /\ (month a < month b
          \/ (month a = month b
              /\ (day a < day b
                  \/ (day a = day b
                      /\ (hour a < hour b
                          \/ (hour a = hour b
                              /\ (minute a < minute b
                                  \/ (minute a = minute b
                                      /\ second a < second b))))))))).

(** The windower of [build_dataflow]:
    [TumblingWindower(length=timedelta(days=1), align_to=datetime(2024, 11, 7))]
    in UTC.  Its windows are the consecutive intervals of one [length]
    counted from [align_to]; the window of a timestamp is the number of whole
    lengths from [align_to] to it (a floor division, negative before
    [align_to]). *)
Definition align_to : datetime := mk_datetime 2024 11 7 0 0 0.

Definition window_length : Z := 86400.

Definition window_of (t : datetime) : Z :=
  (instant t - instant align_to) / window_length.

(** ** Further definitions: lines with signed numbers *)




(** * Properties *)

(** ** Floats and datetimes *)

Lemma Qlt_bool_iff (a b : Q) : Qlt_bool a b = true <-> (a < b)%Q.
Proof.
  unfold Qlt_bool. rewrite negb_true_iff.
  split; intro H.
  - apply Qnot_le_lt. intro Hle. apply Qle_bool_iff in Hle. congruence.
  - destruct (Qle_bool b a) eqn:E; [|reflexivity].
    apply Qle_bool_iff in E. exfalso. exact (Qlt_not_le _ _ H E).
Qed.

Lemma Qlt_bool_false_iff (a b : Q) : Qlt_bool a b = false <-> (b <= a)%Q.
Proof.
  unfold Qlt_bool. rewrite negb_false_iff. apply Qle_bool_iff.
Qed.

Lemma py_clamp_spec (x : Q) :
  (py_max 0 (py_min 100 x) == Estimator.clamp x 0 100)%Q.
Proof.
  unfold py_max, py_min, Estimator.clamp.
  destruct (Qlt_bool x 100) eqn:E1.
  - apply Qlt_bool_iff in E1.
    destruct (Qlt_bool 0 x) eqn:E2.
    + apply Qlt_bool_iff in E2.
      destruct (Qlt_le_dec x 0) as [H|H].
      * exfalso. exact (Qlt_irrefl _ (Qlt_trans _ _ _ H E2)).
      * destruct (Qlt_le_dec 100 x) as [H'|H']; [|reflexivity].
        exfalso. exact (Qlt_irrefl _ (Qlt_trans _ _ _ H' E1)).
    + apply Qlt_bool_false_iff in E2.
      destruct (Qlt_le_dec x 0) as [H|H]; [reflexivity|].
      destruct (Qlt_le_dec 100 x) as [H'|H'].
      * exfalso. exact (Qlt_irrefl _ (Qlt_trans _ _ _ H' E1)).
      * apply Qle_antisym; assumption.
  - apply Qlt_bool_false_iff in E1.
    change (Qlt_bool 0 100) with true. cbv iota.
    destruct (Qlt_le_dec x 0) as [H|H].
    + exfalso. apply (Qlt_irrefl 0).
      apply Qlt_trans with 100%Q; [reflexivity|].
      apply Qle_lt_trans with x; assumption.
    + destruct (Qlt_le_dec 100 x) as [H'|H']; [reflexivity|].
      apply Qle_antisym; assumption.
Qed.

Lemma clamp_compat (x y : Q) :
  (x == y)%Q -> (Estimator.clamp x 0 100 == Estimator.clamp y 0 100)%Q.
Proof.
  intro E. unfold Estimator.clamp.
  destruct (Qlt_le_dec x 0) as [H|H]; destruct (Qlt_le_dec y 0) as [H0|H0].
  - reflexivity.
  - rewrite E in H. exfalso. exact (Qlt_not_le _ _ H H0).
  - rewrite E in H. exfalso. exact (Qlt_not_le _ _ H0 H).
  - destruct (Qlt_le_dec 100 x) as [H1|H1];
      destruct (Qlt_le_dec 100 y) as [H2|H2].
    + reflexivity.
    + rewrite E in H1. exfalso. exact (Qlt_not_le _ _ H1 H2).
    + rewrite E in H1. exfalso. exact (Qlt_not_le _ _ H2 H1).
    + exact E.
Qed.

Lemma total_seconds_sub (a b : datetime) :
  total_seconds (datetime_sub a b) = inject_Z (instant a - instant b).
Proof.
  unfold total_seconds, datetime_sub, new_timedelta, instant. cbn [td_days td_seconds].
  f_equal.
  set (s := second a + minute a * 60 + hour a * 3600
            - (second b + minute b * 60 + hour b * 3600)).
  pose proof (Z.div_mod s 86400 ltac:(lia)) as Hs.
  assert (second a + minute a * 60 + hour a * 3600
          - (second b + minute b * 60 + hour b * 3600) = s) as Hs' by reflexivity.
  lia.
Qed.

(** ** The loop of the estimator against the two-state machine *)

Lemma is_error_iff (entry : LogEntry) :
  is_error entry = true <-> Estimator.erroring (status_code entry).
Proof.
  unfold is_error, Estimator.erroring.
  rewrite andb_true_iff, Z.leb_le, Z.ltb_lt. tauto.
Qed.

Lemma step_deterministic (s : Estimator.state) (ev : Z * Z) (s1 s2 : Estimator.state) :
  Estimator.step s ev s1 -> Estimator.step s ev s2 -> s1 = s2.
Proof.
  intros H1 H2.
  inversion H1; subst; inversion H2; subst; try reflexivity; contradiction.
Qed.

Lemma run_deterministic (evs : list (Z * Z)) :
  forall s s1 s2,
    Estimator.run s evs s1 -> Estimator.run s evs s2 -> s1 = s2.
Proof.
  induction evs as [|ev evs IH]; intros s s1 s2 H1 H2.
  - inversion H1; inversion H2; subst. reflexivity.
  - inversion H1 as [|? ? sa ? ? Hs1 Hr1]; subst.
    inversion H2 as [|? ? sb ? ? Hs2 Hr2]; subst.
    assert (sa = sb) by (eapply step_deterministic; eassumption).
    subst. eapply IH; eassumption.
Qed.

Lemma loop_body_simulates (st : float * option datetime) (s : Estimator.state)
      (entry : LogEntry) :
  represents st s ->
  exists s', Estimator.step s (event_of entry) s'
             /\ represents (uptime_loop_body st entry) s'.
Proof.
  destruct st as [downtime [ds|]]; destruct s as [acc|acc since];
    simpl; try contradiction; intro R.
  - destruct R as [R1 R2].
    unfold uptime_loop_body, event_of.
    destruct (is_error entry) eqn:E.
    + exists (Estimator.Down acc since). split.
      * apply Estimator.stay_down. apply is_error_iff; assumption.
      * simpl; auto.
    + eexists. split.
      * apply Estimator.leave_down.
        intro H. apply is_error_iff in H. congruence.
      * simpl. rewrite total_seconds_sub, R1, R2. reflexivity.
  - unfold uptime_loop_body, event_of.
    destruct (is_error entry) eqn:E.
    + eexists. split.
      * apply Estimator.enter_down. apply is_error_iff; assumption.
      * simpl; auto.
    + eexists. split.
      * apply Estimator.stay_up.
        intro H. apply is_error_iff in H. congruence.
      * simpl; auto.
Qed.

Lemma loop_simulates (entries : list LogEntry) :
  forall st s,
    represents st s ->
    exists s', Estimator.run s (map event_of entries) s'
               /\ represents (fold_left uptime_loop_body entries st) s'.
Proof.
  induction entries as [|entry entries IH]; intros st s R.
  - exists s. split; [constructor | exact R].
  - destruct (loop_body_simulates st s entry R) as [s1 [Hstep R1]].
    destruct (IH _ _ R1) as [s2 [Hrun R2]].
    exists s2. split; [|exact R2].
    simpl. econstructor; eassumption.
Qed.

Lemma last_nonempty_default {A : Type} (l : list A) :
  forall x d d', last (x :: l) d = last (x :: l) d'.
Proof.
  induction l as [|y l IH]; intros x d d'; [reflexivity|].
  change (last (y :: l) d = last (y :: l) d'). apply IH.
Qed.

Lemma uptime_formula_compat (d d' : Q) :
  (d == d')%Q ->
  (py_max 0 (py_min 100 (((inject_Z total_duration - d) / inject_Z total_duration) * 100))
   == Estimator.uptime_of_downtime d')%Q.
Proof.
  intro E. rewrite py_clamp_spec. unfold Estimator.uptime_of_downtime.
  apply clamp_compat. rewrite E. reflexivity.
Qed.

Lemma calculate_uptime_percentage_run (entries : list LogEntry) (e0 : LogEntry)
      (s : Estimator.state) :
  entries <> [] ->
  Estimator.run (Estimator.NotDown 0) (map event_of entries) s ->
  (calculate_uptime_percentage entries
   == Estimator.uptime_of_downtime
        (Estimator.closing_downtime s (instant (timestamp (last entries e0)))))%Q.
Proof.
  intros Hne Hrun.
  destruct entries as [|e1 rest]; [congruence|].
  unfold calculate_uptime_percentage.
  destruct (loop_simulates (e1 :: rest) (0%Q, None) (Estimator.NotDown 0))
    as [s' [Hrun' R]]; [simpl; reflexivity|].
  assert (s' = s) by (eapply run_deterministic; eassumption). subst s'.
  pose proof (last_nonempty_default rest e1 e1 e0) as Hl.
  destruct (fold_left uptime_loop_body (e1 :: rest) (0%Q, None)) as [downtime [ds|]];
    destruct s as [acc|acc since]; simpl in R; try contradiction.
  - destruct R as [R1 R2]. apply uptime_formula_compat.
    simpl Estimator.closing_downtime.
    rewrite total_seconds_sub, R1, R2, Hl. reflexivity.
  - apply uptime_formula_compat. exact R.
Qed.

Lemma scenario_B_general (e0 e1 e2 e3 : LogEntry) :
  status_code e0 = 200 -> status_code e1 = 500 ->
  status_code e2 = 503 -> status_code e3 = 200 ->
  instant (timestamp e3) = instant (timestamp e1) + 2 ->
  (calculate_uptime_percentage [e0; e1; e2; e3]
   == ((86400 - 2) / 86400) * 100)%Q.
Proof.
  intros H0 H1 H2 H3 Ht.
  unfold calculate_uptime_percentage, uptime_loop_body, is_error. simpl.
  rewrite H0, H1, H2, H3. simpl.
  rewrite total_seconds_sub, Ht.
  replace (instant (timestamp e1) + 2 - instant (timestamp e1)) with 2 by lia.
  reflexivity.
Qed.

(** C1. For every non-empty list of events of a bucket,
    [calculate_uptime_percentage] implements the specified state machine: the
    machine started not-down with no downtime runs over the events to exactly
    one final state, and the function returns
    clamp(((86400 - downtime) / 86400) * 100, 0, 100) where the downtime is the
    machine's, closed at the last event's timestamp when still down.  In
    particular the events 200 at T, 500 at T+1s, 503 at T+2s, 200 at T+3s give
    ((86400 - 2) / 86400) * 100. *)
Theorem calculate_uptime_percentage_state_machine
        (entries : list LogEntry) (Hne : entries <> []) :
  (exists s, Estimator.run (Estimator.NotDown 0) (map event_of entries) s)
  /\ (forall s e0,
        Estimator.run (Estimator.NotDown 0) (map event_of entries) s ->
        (calculate_uptime_percentage entries
         == Estimator.uptime_of_downtime
              (Estimator.closing_downtime s
                 (instant (timestamp (last entries e0)))))%Q)
  /\ (forall e0 e1 e2 e3 : LogEntry,
        status_code e0 = 200 -> status_code e1 = 500 ->
        status_code e2 = 503 -> status_code e3 = 200 ->
        instant (timestamp e1) = instant (timestamp e0) + 1 ->
        instant (timestamp e2) = instant (timestamp e0) + 2 ->
        instant (timestamp e3) = instant (timestamp e0) + 3 ->
        (calculate_uptime_percentage [e0; e1; e2; e3]
         == ((86400 - 2) / 86400) * 100)%Q).
Proof.
  split; [|split].
  - destruct (loop_simulates entries (0%Q, None) (Estimator.NotDown 0))
      as [s [Hrun _]]; [simpl; reflexivity|].
    exists s. exact Hrun.
  - intros s e0 Hrun. apply calculate_uptime_percentage_run; assumption.
  - intros e0 e1 e2 e3 H0 H1 H2 H3 T1 T2 T3.
    apply scenario_B_general; try assumption. lia.
Qed.

(** ** Uptime without server errors *)

Lemma loop_without_errors (entries : list LogEntry) (downtime : float) :
  Forall (fun e => ~ (500 <= status_code e < 600)) entries ->
  fold_left uptime_loop_body entries (downtime, None) = (downtime, None).
Proof.
  induction 1 as [|e l He _ IH]; [reflexivity|].
  simpl. destruct (is_error e) eqn:E.
  - apply is_error_iff in E. contradiction.
  - exact IH.
Qed.

(** C5. A bucket whose events all have a status code outside [500, 600) has
    an uptime percentage of exactly 100. *)
Theorem uptime_is_100_without_5xx (entries : list LogEntry)
        (H : Forall (fun e => ~ (500 <= status_code e < 600)) entries) :
  (calculate_uptime_percentage entries == 100)%Q.
Proof.
  destruct entries as [|e0 rest]; [reflexivity|].
  unfold calculate_uptime_percentage.
  rewrite (loop_without_errors _ _ H). reflexivity.
Qed.

Lemma uptime_is_100_without_5xx_witness :
  (calculate_uptime_percentage
     [mk_LogEntry (mk_datetime 2024 10 26 3 5 0) (lit "cust_1") (lit "/a") 200 0.5%Q;
      mk_LogEntry (mk_datetime 2024 10 26 3 7 0) (lit "cust_1") (lit "/a") 403 1%Q]
   == 100)%Q.
Proof.
  apply uptime_is_100_without_5xx.
  repeat constructor; simpl; lia.
Defined.

Lemma calculate_uptime_percentage_state_machine_witness :
  let entries :=
    [mk_LogEntry (mk_datetime 2024 10 26 3 8 0) (lit "cust_2") (lit "/a") 200 1%Q;
     mk_LogEntry (mk_datetime 2024 10 26 3 9 0) (lit "cust_2") (lit "/a") 500 1%Q;
     mk_LogEntry (mk_datetime 2024 10 26 3 9 1) (lit "cust_2") (lit "/a") 503 1%Q;
     mk_LogEntry (mk_datetime 2024 10 26 3 9 2) (lit "cust_2") (lit "/a") 200 1%Q] in
  entries <> []
  /\ exists s, Estimator.run (Estimator.NotDown 0) (map event_of entries) s.
Proof.
  intro entries.
  assert (entries <> []) as Hne by (unfold entries; discriminate).
  split; [exact Hne|].
  exact (proj1 (calculate_uptime_percentage_state_machine entries Hne)).
Defined.

(** ** Sorting *)

Section Sorting.

Context {A : Type} (leb : A -> A -> bool).

Lemma insert_by_perm (x : A) (l : list A) :
  Permutation (x :: l) (insert_by leb x l).
Proof.
  induction l as [|y l IH]; simpl; [apply Permutation_refl|].
  destruct (leb x y); [apply Permutation_refl|].
  eapply perm_trans; [apply perm_swap|]. apply perm_skip. exact IH.
Qed.

Lemma sorted_by_perm (l : list A) : Permutation l (sorted_by leb l).
Proof.
  induction l as [|x l IH]; simpl; [constructor|].
  eapply perm_trans; [apply perm_skip; exact IH|]. apply insert_by_perm.
Qed.

Lemma sorted_by_length (l : list A) :
  List.length (sorted_by leb l) = List.length l.
Proof. symmetry. apply Permutation_length, sorted_by_perm. Qed.

Hypothesis leb_total : forall x y, leb x y = false -> leb y x = true.

Lemma insert_by_sorted (x : A) (l : list A) :
  Sorted (fun a b => leb a b = true) l ->
  Sorted (fun a b => leb a b = true) (insert_by leb x l).
Proof.
  induction 1 as [|y l Hs IH Hhd]; simpl; [repeat constructor|].
  destruct (leb x y) eqn:E.
  - constructor; [constructor; assumption | constructor; exact E].
  - constructor; [exact IH|].
    destruct l as [|z l]; simpl.
    + constructor. apply leb_total; exact E.
    + destruct (leb x z) eqn:E'.
      * constructor. apply leb_total; exact E.
      * inversion Hhd; subst. constructor. assumption.
Qed.

Lemma sorted_by_sorted (l : list A) :
  Sorted (fun a b => leb a b = true) (sorted_by leb l).
Proof.
  induction l as [|x l IH]; simpl; [constructor|].
  apply insert_by_sorted; exact IH.
Qed.

End Sorting.

Lemma Qle_bool_total (x y : Q) : Qle_bool x y = false -> Qle_bool y x = true.
Proof.
  intro H. apply Qle_bool_iff.
  destruct (Qlt_le_dec x y) as [L|L]; [|exact L].
  apply Qlt_le_weak in L. apply Qle_bool_iff in L. congruence.
Qed.

Lemma sorted_is_sorted (data : list float) : Sorted Qle (sorted data).
Proof.
  pose proof (sorted_by_sorted Qle_bool Qle_bool_total data) as H.
  unfold sorted.
  induction H as [|x l Hs IH Hhd]; constructor; [exact IH|].
  destruct Hhd; constructor. apply Qle_bool_iff; assumption.
Qed.

Lemma len_sorted (data : list float) : len (sorted data) = len data.
Proof. unfold len, sorted. rewrite sorted_by_length. reflexivity. Qed.

(** ** format_stats *)

Lemma format_stats_loop (entries : list LogEntry) :
  forall ds,
    fold_left format_stats_loop_body entries ds
    = DailyStats.mk (DailyStats.customer_id ds) (DailyStats.date ds)
        (DailyStats.successful_requests ds
         + len (filter is_success entries))
        (DailyStats.failed_requests ds
         + len (filter (fun e => negb (is_success e)) entries))
        (DailyStats.uptime_percentage ds)
        (DailyStats.latencies ds ++ map duration entries).
Proof.
  induction entries as [|e l IH]; intros [c d s f u lat].
  - simpl. unfold len. simpl. rewrite !Z.add_0_r, app_nil_r. reflexivity.
  - simpl fold_left. rewrite IH. unfold format_stats_loop_body.
    destruct (is_success e) eqn:E; simpl; rewrite E; simpl;
      unfold len; simpl List.length; rewrite <- app_assoc; simpl;
      f_equal; lia.
Qed.

Lemma mean_defined (x : float) (l : list float) :
  mean (x :: l) = Ok (fsum (x :: l) / inject_Z (len (x :: l)))%Q.
Proof. reflexivity. Qed.

Lemma len_cons_pos {A : Type} (x : A) (l : list A) : 0 < len (x :: l).
Proof. unfold len. simpl List.length. lia. Qed.

Lemma median_defined (x : float) (l : list float) :
  exists m, median (x :: l) = Ok m.
Proof.
  unfold median. rewrite len_sorted.
  pose proof (len_cons_pos x l) as Hn.
  destruct (len (x :: l) =? 0) eqn:E; [apply Z.eqb_eq in E; lia|].
  destruct (len (x :: l) mod 2 =? 1); eexists; reflexivity.
Qed.

Lemma percentile_defined (x : float) (l : list float) (q : Q) :
  exists p, percentile (x :: l) q = Ok p.
Proof.
  unfold percentile. rewrite len_sorted.
  pose proof (len_cons_pos x l) as Hn.
  destruct (len (x :: l) =? 0) eqn:E; [apply Z.eqb_eq in E; lia|].
  eexists; reflexivity.
Qed.

Lemma format_stats_defined (now : datetime) (key : str) (offset : Z)
      (entries : list LogEntry) :
  exists avg med p99,
    format_stats now (key, (offset, entries))
    = Ok (StatsDict.mk
            (match entries with e0 :: _ => customer_id e0 | [] => lit "" end)
            (strftime_ymd (match entries with e0 :: _ => timestamp e0 | [] => now end))
            (len (filter is_success entries))
            (len (filter (fun e => negb (is_success e)) entries))
            (calculate_uptime_percentage entries)
            avg med p99).
Proof.
  unfold format_stats. rewrite format_stats_loop.
  unfold DailyStats.new. cbn [DailyStats.customer_id DailyStats.date
    DailyStats.successful_requests DailyStats.failed_requests
    DailyStats.uptime_percentage DailyStats.latencies app].
  unfold DailyStats.avg_latency, DailyStats.median_latency, DailyStats.p99_latency.
  cbn [DailyStats.latencies].
  destruct (map duration entries) as [|x l] eqn:E.
  - exists 0%Q, 0%Q, 0%Q. reflexivity.
  - destruct (median_defined x l) as [m Hm].
    destruct (percentile_defined x l 99) as [p Hp].
    rewrite mean_defined, Hm, Hp.
    eexists _, m, p. reflexivity.
Qed.

Lemma filter_partition_length {A : Type} (f : A -> bool) (l : list A) :
  len (filter f l) + len (filter (fun x => negb (f x)) l) = len l.
Proof.
  unfold len. induction l as [|x l IH]; [reflexivity|].
  simpl. destruct (f x); simpl List.length; lia.
Qed.

(** C4. In the record emitted for a bucket, an event counts as successful
    exactly when 200 <= status_code < 300 and as failed otherwise, and the
    two counts add up to the number of events of the bucket. *)
Theorem format_stats_counts (now : datetime) (key : str) (offset : Z)
        (entries : list LogEntry) :
  exists d,
    format_stats now (key, (offset, entries)) = Ok d
    /\ StatsDict.successful_requests d
       = len (filter (fun e => (200 <=? status_code e) && (status_code e <? 300))
                entries)
    /\ StatsDict.failed_requests d
       = len (filter
                (fun e => negb ((200 <=? status_code e) && (status_code e <? 300)))
                entries)
    /\ StatsDict.successful_requests d + StatsDict.failed_requests d
       = len entries.
Proof.
  destruct (format_stats_defined now key offset entries)
    as [avg [med [p99 H]]].
  eexists. split; [exact H|].
  cbn [StatsDict.successful_requests StatsDict.failed_requests].
  split; [reflexivity|]. split; [reflexivity|].
  apply filter_partition_length.
Qed.

(** ** Order of the entries handed to the estimator *)






(** ** Latency statistics *)

Lemma virtual_index_rank (n : Z) (q : Q) :
  0 < n -> (0 <= q)%Q -> (q <= 100)%Q ->
  let v := (inject_Z (n - 1) * (q / 100))%Q in
  0 <= Qfloor v <= n - 1
  /\ (0 <= v - inject_Z (Qfloor v))%Q /\ (v - inject_Z (Qfloor v) < 1)%Q.
Proof.
  intros Hn Hq0 Hq1 v.
  assert (0 <= inject_Z (n - 1))%Q as Hn1
    by (change 0%Q with (inject_Z 0); rewrite <- Zle_Qle; lia).
  assert (0 <= q / 100)%Q as Hf0.
  { unfold Qdiv. apply Qmult_le_0_compat; [exact Hq0 | discriminate]. }
  assert (q / 100 <= 1)%Q as Hf1.
  { apply Qle_shift_div_r; [reflexivity|]. rewrite Qmult_1_l. exact Hq1. }
  assert (0 <= v)%Q as Hv0 by (apply Qmult_le_0_compat; assumption).
  assert (v <= inject_Z (n - 1))%Q as Hv1.
  { unfold v. rewrite <- (Qmult_1_r (inject_Z (n - 1))) at 2.
    rewrite !(Qmult_comm (inject_Z (n - 1))).
    apply Qmult_le_compat_r; assumption. }
  split; [split|split].
  - change 0 with (Qfloor 0). apply Qfloor_resp_le. exact Hv0.
  - rewrite <- (Qfloor_Z (n - 1)). apply Qfloor_resp_le. exact Hv1.
  - unfold Qminus. rewrite <- Qle_minus_iff. apply Qfloor_le.
  - pose proof (Qlt_floor v) as H.
    rewrite inject_Z_plus in H.
    apply Qplus_lt_l with (z := inject_Z (Qfloor v)).
    ring_simplify. exact H.
Qed.

(** C3. For a non-empty list of latencies, avg_latency is the arithmetic
    mean, median_latency the middle value of the sorted latencies (the mean of
    the two middle values for an even count), and p99_latency the linear
    interpolation between the two closest ranks around (n - 1) * 0.99 of the
    sorted latencies.  Durations [0.5, 1.5, 1.6] give mean 1.2, median 1.5 and
    p99 1.598; durations [0.5, 0.75, 1.0] give 0.75, 0.75 and 0.995. *)
Theorem latency_statistics (ds : DailyStats.t)
        (Hne : DailyStats.latencies ds <> []) :
  let l := DailyStats.latencies ds in
  let s := sorted l in
  let n := len l in
  (Sorted Qle s /\ Permutation l s)
  /\ returns (DailyStats.avg_latency ds) (fsum l / inject_Z n)
  /\ (exists med, DailyStats.median_latency ds = Ok med
        /\ (n mod 2 = 1 -> med = item s (n / 2))
        /\ (n mod 2 = 0 ->
            (med == (item s (n / 2 - 1) + item s (n / 2)) / 2)%Q))
  /\ (exists p99 lo gamma,
        DailyStats.p99_latency ds = Ok p99
        /\ 0 <= lo <= n - 1 /\ (0 <= gamma)%Q /\ (gamma < 1)%Q
        /\ (inject_Z (n - 1) * (99 / 100) == inject_Z lo + gamma)%Q
        /\ (p99 == item s lo
                   + (item s (Z.min (lo + 1) (n - 1)) - item s lo) * gamma)%Q)
  /\ (returns (DailyStats.avg_latency (stats_with [0.5; 1.5; 1.6]%Q)) 1.2
      /\ returns (DailyStats.median_latency (stats_with [0.5; 1.5; 1.6]%Q)) 1.5
      /\ returns (DailyStats.p99_latency (stats_with [0.5; 1.5; 1.6]%Q)) 1.598)
  /\ (returns (DailyStats.avg_latency (stats_with [0.5; 0.75; 1.0]%Q)) 0.75
      /\ returns (DailyStats.median_latency (stats_with [0.5; 0.75; 1.0]%Q)) 0.75
      /\ returns (DailyStats.p99_latency (stats_with [0.5; 0.75; 1.0]%Q)) 0.995).
Proof.
  intros l s n.
  destruct ds as [c d su f u lat]. cbn [DailyStats.latencies] in *.
  subst l. destruct lat as [|x lat]; [congruence|].
  pose proof (len_cons_pos x lat) as Hn. fold n in Hn.
  split; [split; [apply sorted_is_sorted | apply sorted_by_perm]|].
  split.
  { eexists. split; [reflexivity|]. reflexivity. }
  split.
  { unfold DailyStats.median_latency, median. cbn [DailyStats.latencies].
    rewrite len_sorted. fold n. fold s.
    destruct (n =? 0) eqn:E0; [apply Z.eqb_eq in E0; lia|].
    destruct (n mod 2 =? 1) eqn:E1.
    - apply Z.eqb_eq in E1. eexists. split; [reflexivity|].
      split; [reflexivity | intro; lia].
    - apply Z.eqb_neq in E1. eexists. split; [reflexivity|].
      split; [intro; lia | reflexivity]. }
  split.
  { unfold DailyStats.p99_latency, percentile. cbn [DailyStats.latencies].
    rewrite len_sorted. fold n. fold s.
    destruct (n =? 0) eqn:E0; [apply Z.eqb_eq in E0; lia|].
    destruct (virtual_index_rank n 99 Hn) as [Hlo [Hg0 Hg1]];
      [discriminate | discriminate |].
    eexists _, (Qfloor (inject_Z (n - 1) * (99 / 100))), _.
    split; [reflexivity|].
    split; [exact Hlo|]. split; [exact Hg0|]. split; [exact Hg1|].
    split; [ring | reflexivity]. }
  split.
  - repeat split; eexists; (split; [vm_compute; reflexivity | reflexivity]).
  - repeat split; eexists; (split; [vm_compute; reflexivity | reflexivity]).
Qed.

Lemma latency_statistics_witness :
  returns (DailyStats.avg_latency (stats_with [2]%Q)) (fsum [2]%Q / inject_Z 1).
Proof.
  assert (DailyStats.latencies (stats_with [2]%Q) <> []) as Hne
    by (simpl; discriminate).
  exact (proj1 (proj2 (latency_statistics (stats_with [2]%Q) Hne))).
Defined.

(** C10. Without recorded latencies, avg_latency, median_latency and
    p99_latency all return 0.0; so does the record emitted by [format_stats]
    for a window delivered without entries.  Each statistic is then defined
    and non-negative. *)
Theorem latency_statistics_without_durations (ds : DailyStats.t)
        (Hempty : DailyStats.latencies ds = []) :
  DailyStats.avg_latency ds = Ok 0%Q
  /\ DailyStats.median_latency ds = Ok 0%Q
  /\ DailyStats.p99_latency ds = Ok 0%Q
  /\ (0 <= 0)%Q
  /\ forall now key offset,
       exists d, format_stats now (key, (offset, [])) = Ok d
                 /\ StatsDict.avg_latency d = 0%Q
                 /\ StatsDict.median_latency d = 0%Q
                 /\ StatsDict.p99_latency d = 0%Q.
Proof.
  unfold DailyStats.avg_latency, DailyStats.median_latency,
    DailyStats.p99_latency.
  rewrite Hempty.
  repeat split; try reflexivity; try discriminate.
  intros now key offset. eexists. split; [reflexivity|].
  repeat split; reflexivity.
Qed.

Lemma latency_statistics_without_durations_witness :
  DailyStats.avg_latency (DailyStats.new (lit "cust_1") midnight) = Ok 0%Q.
Proof.
  exact (proj1 (latency_statistics_without_durations
                  (DailyStats.new (lit "cust_1") midnight) eq_refl)).
Defined.

(** ** The read endpoint *)

Lemma filter_nil_iff {A : Type} (f : A -> bool) (l : list A) :
  filter f l = [] <-> forall x, In x l -> f x = false.
Proof.
  induction l as [|a l IH]; simpl.
  - split; [intros _ x [] | reflexivity].
  - destruct (f a) eqn:E.
    + split; [discriminate|]. intro H. specialize (H a (or_introl eq_refl)). congruence.
    + rewrite IH. split.
      * intros H x [<-|Hx]; [exact E | apply H; exact Hx].
      * intros H x Hx. apply H. right. exact Hx.
Qed.

Lemma filter_and {A : Type} (f g : A -> bool) (l : list A) :
  filter (fun x => f x && g x) l = filter g (filter f l).
Proof.
  induction l as [|a l IH]; [reflexivity|].
  simpl. destruct (f a); simpl; [destruct (g a)|]; rewrite IH; reflexivity.
Qed.

(** The records the endpoint selects. *)
Lemma get_customer_stats_selection (db : database) (customer_id : str)
      (from_ : option date) :
  let selected :=
    match from_ with
    | Some f =>
        filter (fun r => date_geb (CustomerDailyStats.date r) f)
               (records_of db customer_id)
    | None => records_of db customer_id
    end in
  get_customer_stats db customer_id from_
  = match selected with
    | [] => Raise (HTTPException 404 "No stats found for customer")
    | _ => Ok selected
    end.
Proof.
  unfold get_customer_stats, records_of.
  destruct from_ as [f|]; cbv zeta; [rewrite filter_and|]; reflexivity.
Qed.

(** C6 (as amended). The endpoint signals not-found (404) exactly when no
    record of the customer passes the [from] filter: without [from], exactly
    when the customer has no record at all; with [from], exactly when none of
    the customer's records is dated on or after it.  A customer without any
    record gets 404 for every value of [from]; in every other case the
    selected records are returned. *)
Theorem get_customer_stats_not_found (db : database) (customer_id : str)
        (from_ : option date) :
  let not_found := Raise (HTTPException 404 "No stats found for customer") in
  (get_customer_stats db customer_id None = not_found
   <-> records_of db customer_id = [])
  /\ (forall f,
        get_customer_stats db customer_id (Some f) = not_found
        <-> forall r, In r (records_of db customer_id) ->
                      date_geb (CustomerDailyStats.date r) f = false)
  /\ (records_of db customer_id = [] ->
      get_customer_stats db customer_id from_ = not_found)
  /\ (get_customer_stats db customer_id from_ = not_found
      \/ exists results,
           get_customer_stats db customer_id from_ = Ok results
           /\ results <> []
           /\ forall r, In r results <->
                        In r (records_of db customer_id)
                        /\ match from_ with
                           | Some f => date_geb (CustomerDailyStats.date r) f = true
                           | None => True
                           end).
Proof.
  cbv zeta. split; [|split; [|split]].
  - rewrite (get_customer_stats_selection db customer_id None). cbv zeta.
    destruct (records_of db customer_id); split; congruence.
  - intro f.
    rewrite (get_customer_stats_selection db customer_id (Some f)). cbv zeta.
    rewrite <- filter_nil_iff.
    destruct (filter _ (records_of db customer_id)); split; congruence.
  - intro H. rewrite get_customer_stats_selection. cbv zeta.
    rewrite H. destruct from_; reflexivity.
  - rewrite get_customer_stats_selection. cbv zeta.
    destruct from_ as [f|].
    + destruct (filter _ (records_of db customer_id)) as [|x l] eqn:E;
        [left; reflexivity|].
      right. eexists. split; [reflexivity|]. split; [discriminate|].
      intro r. rewrite <- E, filter_In. reflexivity.
    + destruct (records_of db customer_id) as [|x l] eqn:E;
        [left; reflexivity|].
      right. eexists. split; [reflexivity|]. split; [discriminate|].
      intro r. tauto.
Qed.

(** C6 (as stated) fails: customer cust_1 has a record dated 2024-10-26, and
    the request with from=2024-10-27 is answered 404. *)
Lemma get_customer_stats_404_with_records :
  let db := mk_database [sample_row] 2 in
  records_of db (lit "cust_1") = [sample_row]
  /\ get_customer_stats db (lit "cust_1") (Some (mk_date 2024 10 27))
     = Raise (HTTPException 404 "No stats found for customer").
Proof. split; vm_compute; reflexivity. Qed.

(** ** The sink *)

Lemma str_eqb_eq (a b : str) : str_eqb a b = true <-> a = b.
Proof.
  unfold str_eqb. destruct (list_eq_dec ascii_dec a b); split; congruence.
Qed.

Lemma date_eqb_eq (a b : date) : date_eqb a b = true <-> a = b.
Proof.
  destruct a as [y m d], b as [y' m' d']. unfold date_eqb. simpl.
  rewrite !andb_true_iff, !Z.eqb_eq.
  split; [intros [[-> ->] ->]; reflexivity | intro H; inversion H; auto].
Qed.

Lemma has_key_overwrite (c : str) (d : date) (r : CustomerDailyStats.t)
      (sd : StatsDict.t) :
  has_key c d (overwrite r sd) = has_key c d r.
Proof. reflexivity. Qed.

Lemma overwrite_idempotent (r : CustomerDailyStats.t) (sd : StatsDict.t) :
  overwrite (overwrite r sd) sd = overwrite r sd.
Proof. reflexivity. Qed.






Lemma save_to_database_well_formed (db db1 : database) (sd : StatsDict.t) :
  well_formed db ->
  save_to_database db sd = Ok db1 ->
  well_formed db1.
Proof.
  intros Hwf. unfold save_to_database.
  destruct (strptime (StatsDict.date sd) format_ymd) as [t| |];
    simpl; try discriminate.
  destruct (find _ (rows db)) as [ex|] eqn:F; intro H; inversion H; subst db1;
    unfold well_formed in *; cbn [rows next_id].
  - apply find_some in F. destruct F as [Hin _].
    rewrite Forall_forall in Hwf.
    apply Forall_forall. intros r Hr. apply in_map_iff in Hr.
    destruct Hr as [r0 [<- Hr0]].
    destruct (CustomerDailyStats.id r0 =? CustomerDailyStats.id ex);
      [exact (Hwf _ Hin) | exact (Hwf _ Hr0)].
  - apply Forall_app. split.
    + eapply Forall_impl; [|exact Hwf]. intros r Hr. simpl in Hr. lia.
    + constructor; [simpl; lia | constructor].
Qed.

Lemma empty_database_well_formed (n : Z) : well_formed (mk_database [] n).
Proof. constructor. Qed.



(** ** parse_log_line: malformed lines *)







(** ** parse_log_line: well-formed lines *)

Lemma Z_range_cases (P : Z -> Prop) (n : nat) :
  (forall k, (k < n)%nat -> P (Z.of_nat k)) ->
  forall d, 0 <= d < Z.of_nat n -> P d.
Proof.
  intros H d Hd. rewrite <- (Z2Nat.id d) by lia. apply H. lia.
Qed.

Tactic Notation "by_cases" integer(n) :=
  let k := fresh "k" in
  let Hk := fresh "Hk" in
  intros k Hk;
  do n (destruct k as [|k]; [intros; vm_compute; repeat split|]);
  exfalso; lia.

Lemma digit_char_facts (d : Z) :
  0 <= d <= 9 ->
  digit_value (digit_char d) = Some d
  /\ is_space (digit_char d) = false
  /\ is_char "_" (digit_char d) = false
  /\ is_char "-" (digit_char d) = false
  /\ is_char "+" (digit_char d) = false
  /\ is_char "." (digit_char d) = false
  /\ code (lower (digit_char d)) = 48 + d.
Proof.
  intro H.
  assert (0 <= d < Z.of_nat 10) as H' by lia. revert d H' H.
  apply (Z_range_cases
           (fun d => 0 <= d <= 9 ->
                     digit_value (digit_char d) = Some d
                     /\ is_space (digit_char d) = false
                     /\ is_char "_" (digit_char d) = false
                     /\ is_char "-" (digit_char d) = false
                     /\ is_char "+" (digit_char d) = false
                     /\ is_char "." (digit_char d) = false
                     /\ code (lower (digit_char d)) = 48 + d)).
  by_cases 10.
Qed.

Lemma digit_value_digit_char (d : Z) :
  0 <= d <= 9 -> digit_value (digit_char d) = Some d.
Proof. intro H. apply (digit_char_facts d H). Qed.


Lemma match_format_step (d : directive) (format : list directive)
      (acc acc' : datetime) (s s' : str) (r : datetime * str) :
  hd_error (match_directive d acc s) = Some (acc', s') ->
  hd_error (match_format format acc' s') = Some r ->
  hd_error (match_format (d :: format) acc s) = Some r.
Proof.
  intros H1 H2. cbn [match_format].
  destruct (match_directive d acc s) as [|x l]; [discriminate|].
  inversion H1; subst x. cbn [flat_map fst snd].
  destruct (match_format format acc' s'); [discriminate|].
  exact H2.
Qed.

Lemma match_Lit (c : ascii) (acc : datetime) (rest : str) :
  hd_error (match_directive (Lit c) acc (c :: rest)) = Some (acc, rest).
Proof. cbn [match_directive]. rewrite Ascii.eqb_refl. reflexivity. Qed.


Lemma match_dY (acc : datetime) (y : Z) (rest : str) :
  0 <= y <= 9999 ->
  hd_error (match_directive dY acc (zfill4 y ++ rest))
  = Some (mk_datetime y (month acc) (day acc)
            (hour acc) (minute acc) (second acc), rest).
Proof.
  intro H. unfold zfill4. cbn [app match_directive re_Y].
  assert (0 <= y / 1000 <= 9) as H1.
  { split; [apply Z.div_pos; lia|].
    assert (y / 1000 < 10) by (apply Z.div_lt_upper_bound; lia). lia. }
  assert (0 <= y / 100 mod 10 <= 9) as H2
    by (pose proof (Z.mod_pos_bound (y / 100) 10); lia).
  assert (0 <= y / 10 mod 10 <= 9) as H3
    by (pose proof (Z.mod_pos_bound (y / 10) 10); lia).
  assert (0 <= y mod 10 <= 9) as H4
    by (pose proof (Z.mod_pos_bound y 10); lia).
  rewrite !digit_value_digit_char by assumption.
  cbn [map hd_error fst snd]. do 3 f_equal.
  pose proof (Z.div_mod y 10 ltac:(lia)).
  pose proof (Z.div_mod (y / 10) 10 ltac:(lia)).
  pose proof (Z.div_mod (y / 100) 10 ltac:(lia)).
  assert (y / 10 / 10 = y / 100) by (rewrite Z.div_div by lia; reflexivity).
  assert (y / 100 / 10 = y / 1000) by (rewrite Z.div_div by lia; reflexivity).
  lia.
Qed.

Lemma match_dm (m : Z) :
  1 <= m <= 12 ->
  forall acc rest,
    hd_error (match_directive dm acc (zfill2 m ++ rest))
    = Some (mk_datetime (year acc) m (day acc)
              (hour acc) (minute acc) (second acc), rest).
Proof.
  intro H. assert (0 <= m < Z.of_nat 13) as H' by lia. revert m H' H.
  apply (Z_range_cases
           (fun m => 1 <= m <= 12 -> forall acc rest,
              hd_error (match_directive dm acc (zfill2 m ++ rest))
              = Some (mk_datetime (year acc) m (day acc)
                        (hour acc) (minute acc) (second acc), rest))).
  intros k Hk. destruct k as [|k]; [intro; exfalso; lia|].
  revert k Hk. by_cases 12.
Qed.

Lemma match_dd (d : Z) :
  1 <= d <= 31 ->
  forall acc rest,
    hd_error (match_directive dd acc (zfill2 d ++ rest))
    = Some (mk_datetime (year acc) (month acc) d
              (hour acc) (minute acc) (second acc), rest).
Proof.
  intro H. assert (0 <= d < Z.of_nat 32) as H' by lia. revert d H' H.
  apply (Z_range_cases
           (fun d => 1 <= d <= 31 -> forall acc rest,
              hd_error (match_directive dd acc (zfill2 d ++ rest))
              = Some (mk_datetime (year acc) (month acc) d
                        (hour acc) (minute acc) (second acc), rest))).
  intros k Hk. destruct k as [|k]; [intro; exfalso; lia|].
  revert k Hk. by_cases 31.
Qed.





Lemma days_in_month_le_31 (y m : Z) : days_in_month y m <= 31.
Proof.
  unfold days_in_month. destruct ((m =? 2) && is_leap y); [lia|].
  destruct (Z.to_nat m) as [|k]; [simpl; lia|].
  do 12 (destruct k as [|k]; [simpl; lia|]).
  simpl. destruct k; lia.
Qed.

Lemma valid_datetime_bounds (t : datetime) :
  valid_datetime t = true ->
  1 <= year t <= 9999 /\ 1 <= month t <= 12
  /\ 1 <= day t <= days_in_month (year t) (month t)
  /\ 0 <= hour t <= 23 /\ 0 <= minute t <= 59 /\ 0 <= second t <= 59.
Proof.
  unfold valid_datetime. rewrite !andb_true_iff, !Z.leb_le. tauto.
Qed.


(** *** strip and split on joined fields *)








(** *** int() and float() on rendered numbers *)

Arguments is_char : simpl never.
Arguments digit_value : simpl never.
Arguments digit_char : simpl never.
Arguments is_space : simpl never.



















(** *** Fields that int() and float() reject *)














(** ** parse_log_line: malformed lines, continued *)






(** * Further properties of the code *)

(** ** The uptime estimator *)

(** X1. Whatever the entries and their order, the uptime percentage lies
    between 0 and 100. *)
Theorem uptime_percentage_in_range (entries : list LogEntry) :
  (0 <= calculate_uptime_percentage entries)%Q
  /\ (calculate_uptime_percentage entries <= 100)%Q.
Proof.
  assert (forall x, 0 <= py_max 0 (py_min 100 x) /\ py_max 0 (py_min 100 x) <= 100)%Q
    as R.
  { intro x. unfold py_max, py_min.
    destruct (Qlt_bool x 100) eqn:E1.
    - destruct (Qlt_bool 0 x) eqn:E2.
      + apply Qlt_bool_iff in E1, E2. split; apply Qlt_le_weak; assumption.
      + split; [apply Qle_refl | discriminate].
    - change (Qlt_bool 0 100) with true. cbv iota.
      split; [discriminate | apply Qle_refl]. }
  destruct entries as [|e0 rest]; [split; discriminate|].
  unfold calculate_uptime_percentage.
  destruct (fold_left uptime_loop_body (e0 :: rest) (0%Q, None)) as [d ds].
  apply R.
Qed.

Lemma loop_body_shifted (k : Z) (a b : LogEntry)
      (d1 d2 : float) (s1 s2 : option datetime) :
  same_event_shifted k a b ->
  (d1 == d2)%Q ->
  match s1, s2 with
  | Some x, Some y => instant y = instant x + k
  | None, None => True
  | _, _ => False
  end ->
  let r1 := uptime_loop_body (d1, s1) a in
  let r2 := uptime_loop_body (d2, s2) b in
  (fst r1 == fst r2)%Q
  /\ match snd r1, snd r2 with
     | Some x, Some y => instant y = instant x + k
     | None, None => True
     | _, _ => False
     end.
Proof.
  intros [Ht He] Hd Hs. unfold uptime_loop_body. rewrite He.
  destruct (is_error a); destruct s1 as [x|]; destruct s2 as [y|];
    try contradiction; cbn [fst snd].
  - split; [exact Hd | exact Hs].
  - split; [exact Hd | exact Ht].
  - split; [|exact I].
    rewrite !total_seconds_sub, Hd.
    replace (instant (timestamp b) - instant y)
      with (instant (timestamp a) - instant x) by lia.
    reflexivity.
  - split; [exact Hd | exact I].
Qed.

Lemma loop_shifted (k : Z) (l1 l2 : list LogEntry) :
  Forall2 (same_event_shifted k) l1 l2 ->
  forall (d1 d2 : float) (s1 s2 : option datetime),
    (d1 == d2)%Q ->
    match s1, s2 with
    | Some x, Some y => instant y = instant x + k
    | None, None => True
    | _, _ => False
    end ->
    let r1 := fold_left uptime_loop_body l1 (d1, s1) in
    let r2 := fold_left uptime_loop_body l2 (d2, s2) in
    (fst r1 == fst r2)%Q
    /\ match snd r1, snd r2 with
       | Some x, Some y => instant y = instant x + k
       | None, None => True
       | _, _ => False
       end.
Proof.
  induction 1 as [|a b l1 l2 Hab _ IH]; intros d1 d2 s1 s2 Hd Hs.
  - cbn [fold_left fst snd]. split; assumption.
  - cbn [fold_left].
    destruct (loop_body_shifted k a b d1 d2 s1 s2 Hab Hd Hs) as [Hd' Hs'].
    revert Hd' Hs'.
    destruct (uptime_loop_body (d1, s1) a) as [d1' s1'].
    destruct (uptime_loop_body (d2, s2) b) as [d2' s2'].
    cbn [fst snd]. intros Hd' Hs'. apply IH; assumption.
Qed.

Lemma last_shifted (k : Z) (l1 l2 : list LogEntry) :
  Forall2 (same_event_shifted k) l1 l2 ->
  forall a b, same_event_shifted k a b ->
              same_event_shifted k (last l1 a) (last l2 b).
Proof.
  induction 1 as [|x y l1 l2 Hxy H IH]; intros a b Hab; [exact Hab|].
  destruct H as [|x' y' l1' l2' Hxy' H'].
  - exact Hxy.
  - change (same_event_shifted k (last (x' :: l1') a) (last (y' :: l2') b)).
    apply IH. exact Hab.
Qed.

(** X2. The uptime depends only on the timestamps of the entries and on
    which of them are 5xx: two buckets whose entries agree, one by one, on
    being a server error, and whose timestamps differ by one common shift,
    get the same uptime.  Customer, path, duration and the exact status code
    (a 4xx against a 2xx, say) play no part. *)
Theorem uptime_depends_on_times_and_errors
        (k : Z) (l1 l2 : list LogEntry)
        (H : Forall2 (same_event_shifted k) l1 l2) :
  (calculate_uptime_percentage l1 == calculate_uptime_percentage l2)%Q.
Proof.
  destruct H as [|a b l1 l2 Hab H]; [reflexivity|].
  pose proof (Forall2_cons a b Hab H) as H2.
  unfold calculate_uptime_percentage.
  assert ((fst (fold_left uptime_loop_body (a :: l1) (0%Q, None))
           == fst (fold_left uptime_loop_body (b :: l2) (0%Q, None)))%Q
          /\ match snd (fold_left uptime_loop_body (a :: l1) (0%Q, None)),
                   snd (fold_left uptime_loop_body (b :: l2) (0%Q, None)) with
             | Some x, Some y => instant y = instant x + k
             | None, None => True
             | _, _ => False
             end) as L
    by exact (loop_shifted k _ _ H2 0%Q 0%Q None None (Qeq_refl 0) I).
  pose proof (last_shifted k _ _ H2 a b Hab) as [Hl _].
  revert L.
  destruct (fold_left uptime_loop_body (a :: l1) (0%Q, None)) as [d1 s1].
  destruct (fold_left uptime_loop_body (b :: l2) (0%Q, None)) as [d2 s2].
  cbn [fst snd]. intros [Hd Hs].
  assert (forall u v, (u == v)%Q ->
            (py_max 0 (py_min 100
               (((inject_Z total_duration - u) / inject_Z total_duration) * 100))
             == py_max 0 (py_min 100
               (((inject_Z total_duration - v) / inject_Z total_duration) * 100)))%Q)
    as C.
  { intros u v E. rewrite (uptime_formula_compat u v E).
    rewrite (uptime_formula_compat v v (Qeq_refl v)). reflexivity. }
  destruct s1 as [x|]; destruct s2 as [y|]; try contradiction.
  - apply C. rewrite !total_seconds_sub, Hd.
    replace (instant (timestamp (last (b :: l2) b)) - instant y)
      with (instant (timestamp (last (a :: l1) a)) - instant x) by lia.
    reflexivity.
  - apply C. exact Hd.
Qed.

Lemma uptime_depends_on_times_and_errors_witness :
  (calculate_uptime_percentage [entry_at 0 500; entry_at 2 404]
   == calculate_uptime_percentage [entry_at 7 503; entry_at 9 200])%Q.
Proof.
  apply (uptime_depends_on_times_and_errors 7).
  repeat constructor.
Defined.

Lemma last_cons_default {A : Type} (l : list A) (x d : A) :
  last (x :: l) d = last l x.
Proof.
  revert x d. induction l as [|y l IH]; intros x d; [reflexivity|].
  change (last (y :: l) d = last (y :: l) x).
  rewrite !IH. reflexivity.
Qed.

Lemma last_map_default {A B : Type} (f : A -> B) (l : list A) (d : A) :
  last (map f l) (f d) = f (last l d).
Proof.
  revert d. induction l as [|x l IH]; intro d; [reflexivity|].
  cbn [map]. rewrite !last_cons_default. apply IH.
Qed.

Lemma loop_body_ordered (e : LogEntry) (t : Z) (q : Q) (z : Z)
      (ds : option datetime) :
  (q == inject_Z z)%Q ->
  t <= instant (timestamp e) ->
  (forall s, ds = Some s -> instant s <= t) ->
  let te := instant (timestamp e) in
  exists z',
    (fst (uptime_loop_body (q, ds) e) == inject_Z z')%Q
    /\ closed_downtime z ds t
       <= closed_downtime z' (snd (uptime_loop_body (q, ds) e)) te
       <= closed_downtime z ds t + (te - t)
    /\ (forall s, snd (uptime_loop_body (q, ds) e) = Some s -> instant s <= te).
Proof.
  intros Hq Ht Hds te. unfold uptime_loop_body, closed_downtime.
  destruct (is_error e); destruct ds as [s|]; cbn [fst snd].
  - exists z. specialize (Hds s eq_refl).
    split; [exact Hq|]. split; [lia|].
    intros s' E. inversion E; subst. lia.
  - exists z. split; [exact Hq|]. split; [fold te; lia|].
    intros s' E. inversion E; subst. fold te. lia.
  - exists (z + (te - instant s)). specialize (Hds s eq_refl).
    split; [|split; [lia | discriminate]].
    rewrite total_seconds_sub, Hq, <- inject_Z_plus. reflexivity.
  - exists z. split; [exact Hq|]. split; [lia | discriminate].
Qed.

Lemma loop_ordered (l : list LogEntry) :
  forall (t : Z) (q : Q) (z : Z) (ds : option datetime),
    (q == inject_Z z)%Q ->
    StronglySorted ts_le l ->
    Forall (fun e => t <= instant (timestamp e)) l ->
    (forall s, ds = Some s -> instant s <= t) ->
    let tl := last (map (fun e => instant (timestamp e)) l) t in
    exists z',
      (fst (fold_left uptime_loop_body l (q, ds)) == inject_Z z')%Q
      /\ closed_downtime z ds t
         <= closed_downtime z' (snd (fold_left uptime_loop_body l (q, ds))) tl
         <= closed_downtime z ds t + (tl - t)
      /\ t <= tl.
Proof.
  induction l as [|e l IH]; intros t q z ds Hq Hs Hf Hds.
  - exists z. cbn. split; [exact Hq | lia].
  - inversion Hs as [|? ? Hs' Hle]; subst.
    inversion Hf as [|? ? Hte Hf']; subst.
    destruct (loop_body_ordered e t q z ds Hq Hte Hds) as [z1 [Hq1 [B1 Hds1]]].
    cbn [fold_left map]. rewrite last_cons_default.
    revert Hq1 B1 Hds1.
    destruct (uptime_loop_body (q, ds) e) as [q1 ds1]. cbn [fst snd].
    intros Hq1 B1 Hds1.
    destruct (IH (instant (timestamp e)) q1 z1 ds1 Hq1 Hs' Hle Hds1)
      as [z2 [Hq2 [B2 Ht2]]].
    exists z2. unfold float in *. split; [exact Hq2|]. split; lia.
Qed.

(** X3. When the entries are in ascending timestamp order, the downtime the
    estimator accumulates is a whole number of seconds between 0 and the time
    from the first to the last entry, and the uptime is the clamped formula on
    it.  When first and last entry are at most a day apart, nothing is
    clamped. *)
Theorem uptime_of_ordered_entries (e0 : LogEntry) (rest : list LogEntry)
        (Hsorted : StronglySorted ts_le (e0 :: rest)) :
  let span := instant (timestamp (last rest e0)) - instant (timestamp e0) in
  exists downtime : Z,
    0 <= downtime <= span
    /\ (calculate_uptime_percentage (e0 :: rest)
        == Estimator.uptime_of_downtime (inject_Z downtime))%Q
    /\ (span <= 86400 ->
        (calculate_uptime_percentage (e0 :: rest)
         == ((86400 - inject_Z downtime) / 86400) * 100)%Q).
Proof.
  intro span.
  assert (Forall (fun e => instant (timestamp e0) <= instant (timestamp e))
                 (e0 :: rest)) as Hf.
  { inversion Hsorted as [|? ? _ Hle]; subst.
    constructor; [lia | exact Hle]. }
  destruct (loop_ordered (e0 :: rest) (instant (timestamp e0)) 0%Q 0 None
              (Qeq_refl 0) Hsorted Hf ltac:(discriminate))
    as [z [Hq [B _]]].
  change (last (map (fun e => instant (timestamp e)) (e0 :: rest))
               (instant (timestamp e0)))
    with (last (map (fun e => instant (timestamp e)) (e0 :: rest))
               ((fun e => instant (timestamp e)) e0)) in B.
  rewrite last_map_default, last_cons_default in B.
  change (closed_downtime 0 None (instant (timestamp e0))) with 0 in B.
  unfold calculate_uptime_percentage. rewrite last_cons_default.
  revert Hq B.
  destruct (fold_left uptime_loop_body (e0 :: rest) (0%Q, None)) as [q ds].
  cbn [fst snd]. intros Hq B.
  exists (closed_downtime z ds (instant (timestamp (last rest e0)))).
  split; [fold span in B; lia|].
  assert ((match ds with
           | Some s =>
               q + total_seconds (datetime_sub (timestamp (last rest e0)) s)
           | None => q
           end
           == inject_Z (closed_downtime z ds (instant (timestamp (last rest e0))))))%Q
    as Hd.
  { destruct ds as [s|]; cbn [closed_downtime]; [|exact Hq].
    rewrite total_seconds_sub, Hq, <- inject_Z_plus. reflexivity. }
  split; [apply uptime_formula_compat; exact Hd|].
  intro Hspan.
  rewrite (uptime_formula_compat _ _ Hd).
  set (d := closed_downtime z ds (instant (timestamp (last rest e0)))) in *.
  assert (0 <= d <= 86400) as Hd' by (fold span in B; lia).
  unfold Estimator.uptime_of_downtime, Estimator.clamp.
  set (x := (((86400 - inject_Z d) / 86400) * 100)%Q).
  assert (x == inject_Z ((86400 - d) * 100) / 86400)%Q as Ex.
  { unfold x. rewrite inject_Z_mult.
    unfold Zminus. rewrite inject_Z_plus, inject_Z_opp.
    change (inject_Z 86400) with 86400%Q. change (inject_Z 100) with 100%Q.
    field. }
  assert (0 <= x)%Q as H0.
  { rewrite Ex. apply Qle_shift_div_l; [reflexivity|].
    rewrite Qmult_0_l. change 0%Q with (inject_Z 0).
    rewrite <- Zle_Qle. lia. }
  assert (x <= 100)%Q as H1.
  { rewrite Ex. apply Qle_shift_div_r; [reflexivity|].
    change (100 * 86400)%Q with (inject_Z 8640000).
    rewrite <- Zle_Qle. lia. }
  destruct (Qlt_le_dec x 0) as [L|_];
    [exfalso; exact (Qlt_not_le _ _ L H0)|].
  destruct (Qlt_le_dec 100 x) as [L|_];
    [exfalso; exact (Qlt_not_le _ _ L H1)|].
  reflexivity.
Qed.

Lemma uptime_of_ordered_entries_witness :
  exists downtime : Z,
    0 <= downtime <= 3
    /\ (calculate_uptime_percentage
          [entry_at 0 200; entry_at 1 500; entry_at 2 503; entry_at 3 200]
        == Estimator.uptime_of_downtime (inject_Z downtime))%Q.
Proof.
  assert (StronglySorted ts_le
            [entry_at 0 200; entry_at 1 500; entry_at 2 503; entry_at 3 200])
    as Hs by (repeat constructor; unfold ts_le; vm_compute; discriminate).
  destruct (uptime_of_ordered_entries _ _ Hs) as [d [B [E _]]].
  exists d. split; [exact B | exact E].
Defined.

Lemma loop_all_errors (l : list LogEntry) (q : float) (s : datetime) :
  Forall (fun e => is_error e = true) l ->
  fold_left uptime_loop_body l (q, Some s) = (q, Some s).
Proof.
  induction 1 as [|e l He _ IH]; [reflexivity|].
  cbn [fold_left]. unfold uptime_loop_body at 2. rewrite He. exact IH.
Qed.

(** X4. In a bucket where every entry is a server error, the downtime is the
    time from the first entry to the last one, whatever happens after the
    last entry; in particular a bucket with a single entry has an uptime of
    100 even when that entry is a 5xx. *)
Theorem uptime_of_failing_bucket (e0 : LogEntry) (rest : list LogEntry)
        (Herr : Forall (fun e => 500 <= status_code e < 600) (e0 :: rest)) :
  (calculate_uptime_percentage (e0 :: rest)
   == Estimator.uptime_of_downtime
        (inject_Z (instant (timestamp (last rest e0))
                   - instant (timestamp e0))))%Q
  /\ (forall e, calculate_uptime_percentage [e] == 100)%Q.
Proof.
  split.
  - assert (Forall (fun e => is_error e = true) (e0 :: rest)) as H.
    { eapply Forall_impl; [|exact Herr].
      intros e He. apply is_error_iff. exact He. }
    inversion H as [|? ? H0 Hrest]; subst.
    unfold calculate_uptime_percentage. rewrite last_cons_default.
    cbn [fold_left]. unfold uptime_loop_body at 2. rewrite H0.
    rewrite (loop_all_errors rest 0%Q (timestamp e0) Hrest).
    apply uptime_formula_compat.
    rewrite total_seconds_sub, Qplus_0_l. reflexivity.
  - intro e. unfold calculate_uptime_percentage.
    cbn [fold_left last]. unfold uptime_loop_body.
    destruct (is_error e).
    + rewrite total_seconds_sub, Z.sub_diag. reflexivity.
    + reflexivity.
Qed.

Lemma uptime_of_failing_bucket_witness :
  (calculate_uptime_percentage [entry_at 1 500; entry_at 4 503; entry_at 9 500]
   == Estimator.uptime_of_downtime
        (inject_Z (instant (timestamp (entry_at 9 500))
                   - instant (timestamp (entry_at 1 500)))))%Q.
Proof.
  apply (uptime_of_failing_bucket (entry_at 1 500)
           [entry_at 4 503; entry_at 9 500]).
  repeat constructor; vm_compute; discriminate.
Defined.

(** ** The parser *)

Lemma split_from_lstrip (s : str) : split_from [] (lstrip s) = split_from [] s.
Proof.
  induction s as [|c s IH]; [reflexivity|].
  cbn [lstrip split_from]. destruct (is_space c) eqn:E; [exact IH|].
  cbn [split_from]. rewrite E. reflexivity.
Qed.

Lemma split_from_trailing (t : str) :
  Forall (fun c => is_space c = true) t ->
  forall s word, split_from word (s ++ t) = split_from word s.
Proof.
  induction 1 as [|c t Hc _ IH]; intros s word.
  - rewrite app_nil_r. reflexivity.
  - change (s ++ c :: t) with (s ++ [c] ++ t).
    rewrite app_assoc, IH.
    revert word. induction s as [|a s IHs]; intro word.
    + cbn [app split_from]. rewrite Hc. destruct word; reflexivity.
    + cbn [app split_from].
      destruct (is_space a); [destruct word|]; rewrite IHs; reflexivity.
Qed.

Lemma lstrip_decomposes (s : str) :
  exists t, s = t ++ lstrip s /\ Forall (fun c => is_space c = true) t.
Proof.
  induction s as [|c s [t [E F]]].
  - exists []. split; [reflexivity | constructor].
  - cbn [lstrip]. destruct (is_space c) eqn:Hc.
    + exists (c :: t). split; [cbn [app]; f_equal; exact E|].
      constructor; assumption.
    + exists []. split; [reflexivity | constructor].
Qed.

Lemma split_strip (s : str) : split (strip s) = split s.
Proof.
  unfold split, strip.
  rewrite <- (split_from_lstrip s).
  destruct (lstrip_decomposes (rev (lstrip s))) as [t [E F]].
  assert (lstrip s = rev (lstrip (rev (lstrip s))) ++ rev t) as E'.
  { rewrite <- rev_app_distr, <- E, rev_involutive. reflexivity. }
  rewrite E' at 2.
  rewrite split_from_trailing; [reflexivity|].
  apply Forall_rev. exact F.
Qed.

Lemma nth_error_firstn_lt {A : Type} (n i : nat) (l : list A) :
  (i < n)%nat -> nth_error (firstn n l) i = nth_error l i.
Proof.
  revert i l. induction n as [|n IH]; intros i l H; [lia|].
  destruct l as [|x l]; [reflexivity|].
  destruct i as [|i]; [reflexivity|].
  cbn [firstn nth_error]. apply IH. lia.
Qed.

(** X5. The result of [parse_log_line] is a function of the first six
    whitespace-separated fields of the line: leading and trailing whitespace,
    the amount and kind of whitespace between fields, and every field after
    the sixth are ignored. *)
Theorem parse_log_line_first_six_fields (line1 line2 : str)
        (H : firstn 6 (split line1) = firstn 6 (split line2)) :
  parse_log_line line1 = parse_log_line line2.
Proof.
  unfold parse_log_line. rewrite !split_strip.
  assert (forall i, (i < 6)%nat ->
            getitem (split line1) i = getitem (split line2) i) as G.
  { intros i Hi. unfold getitem.
    rewrite <- (nth_error_firstn_lt 6 i (split line1) Hi),
            <- (nth_error_firstn_lt 6 i (split line2) Hi), H.
    reflexivity. }
  rewrite (G 0%nat), (G 1%nat), (G 2%nat), (G 3%nat), (G 4%nat), (G 5%nat)
    by lia.
  reflexivity.
Qed.

Lemma parse_log_line_first_six_fields_witness :
  parse_log_line
    (lit "  2024-10-26   03:05:00 cust_1 /api/v1/resource2  200 0.5 GET x ")
  = parse_log_line (lit "2024-10-26 03:05:00 cust_1 /api/v1/resource2 200 0.5").
Proof.
  apply parse_log_line_first_six_fields. vm_compute. reflexivity.
Defined.

Lemma split_from_fields (s : str) :
  forall word,
    Forall (fun c => is_space c = false) word ->
    Forall is_field (split_from word s).
Proof.
  induction s as [|c s IH]; intros word Hw.
  - cbn [split_from]. destruct word as [|a w]; [constructor|].
    constructor; [split; [discriminate | exact Hw] | constructor].
  - cbn [split_from]. destruct (is_space c) eqn:Hc.
    + destruct word as [|a w]; [apply IH; constructor|].
      constructor; [split; [discriminate | exact Hw] | apply IH; constructor].
    + apply IH. apply Forall_app. split; [exact Hw | repeat constructor; exact Hc].
Qed.

Lemma getitem_field (parts : list str) (i : nat) (p : str) :
  Forall is_field parts -> getitem parts i = Ok p -> is_field p.
Proof.
  intros F. unfold getitem.
  destruct (nth_error parts i) as [w|] eqn:E; [|discriminate].
  intro H. inversion H; subst.
  rewrite Forall_forall in F. apply F. eapply nth_error_In. exact E.
Qed.

Lemma strptime_valid (s : str) (format : list directive) (t : datetime) :
  strptime s format = Ok t -> valid_datetime t = true.
Proof.
  unfold strptime.
  destruct (match_format format found_default s) as [|[found rest] l];
    [discriminate|].
  destruct rest; [|discriminate].
  destruct (valid_datetime found) eqn:V; [|discriminate].
  intro H. inversion H; subst. exact V.
Qed.

Lemma try_bind_returns {A B : Type} (r : result A) (k : A -> result B) (x : B) :
  try_except_index_value (bind r k) = Ok (Some x) ->
  exists a, r = Ok a /\ try_except_index_value (k a) = Ok (Some x).
Proof.
  destruct r as [a|e|]; cbn [bind].
  - intro H. exists a. split; [reflexivity | exact H].
  - destruct e; discriminate.
  - discriminate.
Qed.

(** X6. Every entry [parse_log_line] returns carries a timestamp that is a
    valid calendar date and time of day (years 1 to 9999, no 30 February, no
    second 60), and a customer id and a request path that are non-empty and
    free of whitespace. *)
Theorem parse_log_line_entry_well_formed (line : str) (entry : LogEntry)
        (H : parse_log_line line = Ok (Some entry)) :
  valid_datetime (timestamp entry) = true
  /\ is_field (customer_id entry)
  /\ is_field (request_path entry).
Proof.
  unfold parse_log_line in H.
  pose proof (split_from_fields (strip line) [] (Forall_nil _)) as F.
  fold (split (strip line)) in F.
  set (parts := split (strip line)) in *.
  apply try_bind_returns in H. destruct H as [p0 [E0 H]].
  apply try_bind_returns in H. destruct H as [p1 [E1 H]].
  apply try_bind_returns in H. destruct H as [t [Et H]].
  apply try_bind_returns in H. destruct H as [p2 [E2 H]].
  apply try_bind_returns in H. destruct H as [p3 [E3 H]].
  apply try_bind_returns in H. destruct H as [p4 [E4 H]].
  apply try_bind_returns in H. destruct H as [z [Ez H]].
  apply try_bind_returns in H. destruct H as [p5 [E5 H]].
  apply try_bind_returns in H. destruct H as [q [Eq H]].
  cbn [try_except_index_value] in H. inversion H; subst entry.
  cbn [timestamp customer_id request_path].
  split; [eapply strptime_valid; exact Et|].
  split; eapply getitem_field; eassumption.
Qed.

Lemma parse_log_line_entry_well_formed_witness :
  valid_datetime (mk_datetime 2024 10 26 3 5 0) = true
  /\ is_field (lit "cust_1") /\ is_field (lit "/api/v1/resource2").
Proof.
  apply (parse_log_line_entry_well_formed
           (lit "2024-10-26 03:05:00 cust_1 /api/v1/resource2 200 0.5")
           (mk_LogEntry (mk_datetime 2024 10 26 3 5 0) (lit "cust_1")
              (lit "/api/v1/resource2") 200 0.5%Q)).
  vm_compute. reflexivity.
Defined.

Lemma valid_entries_cons (line : str) (rest : list str) (es : list LogEntry) :
  valid_entries (line :: rest) = Ok es ->
  exists parsed es',
    parse_log_line line = Ok parsed /\ valid_entries rest = Ok es'
    /\ es = match parsed with Some e => e :: es' | None => es' end.
Proof.
  cbn [valid_entries].
  destruct (parse_log_line line) as [parsed|e|]; cbn [bind]; try discriminate.
  destruct (valid_entries rest) as [es'|e|]; cbn [bind]; try discriminate.
  intro H. inversion H. eexists _, _. repeat split; reflexivity.
Qed.

(** X7. The parse-and-filter steps of the dataflow treat each line on its
    own: the entries of two batches of lines read one after the other are
    the entries of the first batch followed by those of the second, there are
    never more entries than lines, and an entry reaches the windows exactly
    when it is the parse of one of the lines. *)
Theorem valid_entries_app (lines1 lines2 : list str) (es1 es2 : list LogEntry)
        (H1 : valid_entries lines1 = Ok es1)
        (H2 : valid_entries lines2 = Ok es2) :
  valid_entries (lines1 ++ lines2) = Ok (es1 ++ es2)
  /\ (List.length es1 <= List.length lines1)%nat
  /\ (forall e, In e es1 <->
                exists line, In line lines1
                             /\ parse_log_line line = Ok (Some e)).
Proof.
  revert es1 H1. induction lines1 as [|line rest IH]; intros es1 H1.
  - cbn in H1. inversion H1; subst. cbn [app List.length].
    split; [exact H2|]. split; [lia|].
    intro e. split; [intros [] | intros [l [[] _]]].
  - destruct (valid_entries_cons line rest es1 H1) as [parsed [es' [Ep [Er E]]]].
    destruct (IH es' Er) as [Ha [Hl Hin]].
    cbn [app valid_entries]. rewrite Ep, Ha. cbn [bind].
    split; [|split].
    + subst es1. destruct parsed; reflexivity.
    + subst es1. destruct parsed; cbn [List.length]; lia.
    + intro e. subst es1. split.
      * intro He.
        assert ((parsed = Some e) \/ In e es') as [Hp|Hr]
          by (destruct parsed as [e'|];
              [destruct He as [->|He]; [left; reflexivity | right; exact He]
              | right; exact He]).
        -- exists line. split; [left; reflexivity | rewrite Ep, Hp; reflexivity].
        -- apply Hin in Hr. destruct Hr as [l [Hl' Hp]].
           exists l. split; [right; exact Hl' | exact Hp].
      * intros [l [[<-|Hl'] Hp]].
        -- rewrite Ep in Hp. inversion Hp; subst. left. reflexivity.
        -- assert (In e es') as He by (apply Hin; exists l; split; assumption).
           destruct parsed; [right|]; exact He.
Qed.

Lemma valid_entries_app_witness :
  valid_entries ([lit "2024-10-26 03:05:00 cust_1 /a 200 0.5"; lit "junk"]
                 ++ [lit "2024-10-26 03:06:00 cust_1 /a 500 1"])
  = Ok ([mk_LogEntry (mk_datetime 2024 10 26 3 5 0) (lit "cust_1") (lit "/a")
           200 0.5%Q]
        ++ [mk_LogEntry (mk_datetime 2024 10 26 3 6 0) (lit "cust_1") (lit "/a")
              500 1%Q]).
Proof.
  apply valid_entries_app; vm_compute; reflexivity.
Defined.

(** ** Keys of the dataflow *)

Lemma app_same_length_inj {A : Type} (c1 : list A) :
  forall c2 s1 s2,
    List.length s1 = List.length s2 ->
    c1 ++ s1 = c2 ++ s2 -> c1 = c2 /\ s1 = s2.
Proof.
  induction c1 as [|a c1 IH]; intros c2 s1 s2 L E.
  - destruct c2 as [|b c2]; [split; [reflexivity | exact E]|].
    exfalso. apply (f_equal (@List.length A)) in E.
    cbn [app List.length] in E. rewrite length_app in E. lia.
  - destruct c2 as [|b c2].
    + exfalso. apply (f_equal (@List.length A)) in E.
      cbn [app List.length] in E. rewrite length_app in E. lia.
    + cbn [app] in E. inversion E; subst.
      destruct (IH c2 s1 s2 L H1) as [-> ->]. split; reflexivity.
Qed.

Lemma digit_char_inj (a b : Z) :
  0 <= a <= 9 -> 0 <= b <= 9 -> digit_char a = digit_char b -> a = b.
Proof.
  intros Ha Hb E. apply (f_equal digit_value) in E.
  rewrite !digit_value_digit_char in E by assumption.
  inversion E. reflexivity.
Qed.

Lemma zfill2_inj (a b : Z) :
  0 <= a <= 99 -> 0 <= b <= 99 -> zfill2 a = zfill2 b -> a = b.
Proof.
  intros Ha Hb E. unfold zfill2 in E. inversion E as [[E1 E2]].
  assert (a / 10 < 10) by (apply Z.div_lt_upper_bound; lia).
  assert (b / 10 < 10) by (apply Z.div_lt_upper_bound; lia).
  pose proof (Z.div_pos a 10 ltac:(lia) ltac:(lia)).
  pose proof (Z.div_pos b 10 ltac:(lia) ltac:(lia)).
  pose proof (Z.mod_pos_bound a 10 ltac:(lia)).
  pose proof (Z.mod_pos_bound b 10 ltac:(lia)).
  apply digit_char_inj in E1; [|lia|lia].
  apply digit_char_inj in E2; [|lia|lia].
  rewrite (Z.div_mod a 10), (Z.div_mod b 10) by lia. lia.
Qed.

Lemma zfill4_inj (a b : Z) :
  0 <= a <= 9999 -> 0 <= b <= 9999 -> zfill4 a = zfill4 b -> a = b.
Proof.
  intros Ha Hb E. unfold zfill4 in E. inversion E as [[E1 E2 E3 E4]].
  assert (a / 1000 < 10) by (apply Z.div_lt_upper_bound; lia).
  assert (b / 1000 < 10) by (apply Z.div_lt_upper_bound; lia).
  pose proof (Z.div_pos a 1000 ltac:(lia) ltac:(lia)).
  pose proof (Z.div_pos b 1000 ltac:(lia) ltac:(lia)).
  pose proof (Z.mod_pos_bound (a / 100) 10 ltac:(lia)).
  pose proof (Z.mod_pos_bound (b / 100) 10 ltac:(lia)).
  pose proof (Z.mod_pos_bound (a / 10) 10 ltac:(lia)).
  pose proof (Z.mod_pos_bound (b / 10) 10 ltac:(lia)).
  pose proof (Z.mod_pos_bound a 10 ltac:(lia)).
  pose proof (Z.mod_pos_bound b 10 ltac:(lia)).
  apply digit_char_inj in E1; [|lia|lia].
  apply digit_char_inj in E2; [|lia|lia].
  apply digit_char_inj in E3; [|lia|lia].
  apply digit_char_inj in E4; [|lia|lia].
  pose proof (Z.div_mod a 10 ltac:(lia)).
  pose proof (Z.div_mod b 10 ltac:(lia)).
  pose proof (Z.div_mod (a / 10) 10 ltac:(lia)).
  pose proof (Z.div_mod (b / 10) 10 ltac:(lia)).
  pose proof (Z.div_mod (a / 100) 10 ltac:(lia)).
  pose proof (Z.div_mod (b / 100) 10 ltac:(lia)).
  assert (a / 10 / 10 = a / 100) by (rewrite Z.div_div by lia; reflexivity).
  assert (b / 10 / 10 = b / 100) by (rewrite Z.div_div by lia; reflexivity).
  assert (a / 100 / 10 = a / 1000) by (rewrite Z.div_div by lia; reflexivity).
  assert (b / 100 / 10 = b / 1000) by (rewrite Z.div_div by lia; reflexivity).
  lia.
Qed.

Lemma date_isoformat_inj (t1 t2 : datetime) :
  valid_datetime t1 = true -> valid_datetime t2 = true ->
  date_isoformat (date_of t1) = date_isoformat (date_of t2) ->
  date_of t1 = date_of t2.
Proof.
  intros V1 V2 E.
  destruct (valid_datetime_bounds t1 V1) as [By1 [Bm1 [Bd1 _]]].
  destruct (valid_datetime_bounds t2 V2) as [By2 [Bm2 [Bd2 _]]].
  pose proof (days_in_month_le_31 (year t1) (month t1)).
  pose proof (days_in_month_le_31 (year t2) (month t2)).
  unfold date_isoformat, date_of in *. cbn [date_year date_month date_day] in E.
  unfold zfill4 at 1 2 in E. cbn [app lit list_ascii_of_string] in E.
  injection E as E1 E2 E3 E4 E5 E6 E7 E8.
  assert (zfill4 (year t1) = zfill4 (year t2)) as Ey
    by (unfold zfill4; congruence).
  assert (zfill2 (month t1) = zfill2 (month t2)) as Em
    by (unfold zfill2; congruence).
  assert (zfill2 (day t1) = zfill2 (day t2)) as Ed
    by (unfold zfill2; congruence).
  apply zfill4_inj in Ey; [|lia|lia].
  apply zfill2_inj in Em; [|lia|lia].
  apply zfill2_inj in Ed; [|lia|lia].
  congruence.
Qed.

(** X8. The key [customer_date_event] gives an entry identifies the customer
    and the calendar day: two entries with valid timestamps get the same key
    exactly when they have the same customer id and the same date, even when
    a customer id itself contains underscores, digits or dashes. *)
Theorem customer_date_event_key_injective (a b : LogEntry)
        (Ha : valid_datetime (timestamp a) = true)
        (Hb : valid_datetime (timestamp b) = true) :
  fst (customer_date_event a) = fst (customer_date_event b)
  <-> customer_id a = customer_id b
      /\ date_of (timestamp a) = date_of (timestamp b).
Proof.
  unfold customer_date_event. cbn [fst]. split.
  - intro E.
    apply app_same_length_inj in E; [|reflexivity].
    destruct E as [Ec Ed]. split; [exact Ec|].
    apply date_isoformat_inj; [exact Ha | exact Hb|].
    apply (f_equal (@tl ascii)) in Ed. exact Ed.
  - intros [Ec Ed]. rewrite Ec, Ed. reflexivity.
Qed.

Lemma customer_date_event_key_injective_witness :
  fst (customer_date_event (entry_at 1 200))
  = fst (customer_date_event (entry_at 5 500))
  <-> customer_id (entry_at 1 200) = customer_id (entry_at 5 500)
      /\ date_of (timestamp (entry_at 1 200))
         = date_of (timestamp (entry_at 5 500)).
Proof.
  apply customer_date_event_key_injective; vm_compute; reflexivity.
Defined.

(** ** The sink and the read endpoint together *)

Lemma has_key_iff (c : str) (d : date) (r : CustomerDailyStats.t) :
  has_key c d r = true <-> key_of r = (c, d).
Proof.
  unfold has_key, key_of. rewrite andb_true_iff, str_eqb_eq, date_eqb_eq.
  split; [intros [-> ->]; reflexivity | intro H; inversion H; auto].
Qed.

Lemma NoDup_map_inj {A B : Type} (f : A -> B) (l : list A) (x y : A) :
  NoDup (map f l) -> In x l -> In y l -> f x = f y -> x = y.
Proof.
  induction l as [|a l IH]; [intros _ []|].
  cbn [map]. intros N Hx Hy E. inversion N as [|? ? Hn N']; subst.
  destruct Hx as [->|Hx]; destruct Hy as [->|Hy].
  - reflexivity.
  - exfalso. apply Hn. rewrite E. apply in_map. exact Hy.
  - exfalso. apply Hn. rewrite <- E. apply in_map. exact Hx.
  - apply IH; assumption.
Qed.

(** What [save_to_database] does to the rows, in its two cases. *)
Lemma save_to_database_cases (db db1 : database) (sd : StatsDict.t)
      (t : datetime) :
  strptime (StatsDict.date sd) format_ymd = Ok t ->
  save_to_database db sd = Ok db1 ->
  let c := StatsDict.customer_id sd in
  let d := date_of t in
  (find (has_key c d) (rows db) = None
   /\ db1 = mk_database (rows db ++ [db_stats_of (next_id db) d sd])
                        (next_id db + 1))
  \/ (exists ex,
        find (has_key c d) (rows db) = Some ex
        /\ db1 = mk_database
                   (map (fun r =>
                           if CustomerDailyStats.id r =? CustomerDailyStats.id ex
                           then overwrite ex sd else r) (rows db))
                   (next_id db)).
Proof.
  intros Hd H c d. unfold save_to_database in H. rewrite Hd in H.
  cbn [bind] in H. fold c d in H.
  destruct (find (has_key c d) (rows db)) as [ex|] eqn:F.
  - right. exists ex. split; [reflexivity|]. inversion H. reflexivity.
  - left. split; [reflexivity|]. inversion H. reflexivity.
Qed.

Lemma update_keeps_ids_and_keys (db : database) (sd : StatsDict.t)
      (ex : CustomerDailyStats.t) :
  unique_ids db -> In ex (rows db) ->
  let upd := fun r => if CustomerDailyStats.id r =? CustomerDailyStats.id ex
                      then overwrite ex sd else r in
  map CustomerDailyStats.id (map upd (rows db))
  = map CustomerDailyStats.id (rows db)
  /\ map key_of (map upd (rows db)) = map key_of (rows db).
Proof.
  intros U Hex upd. rewrite !map_map.
  split; apply map_ext_in; intros r Hr; unfold upd;
    destruct (CustomerDailyStats.id r =? CustomerDailyStats.id ex) eqn:E;
    try reflexivity;
    apply Z.eqb_eq in E;
    rewrite (NoDup_map_inj CustomerDailyStats.id (rows db) r ex U Hr Hex E);
    reflexivity.
Qed.

(** X9. [save_to_database] keeps the constraints of the table: when the ids
    are distinct and drawn from the sequence and no two rows share a
    (customer_id, date) key, the same holds after the call.  The sink never
    creates a second row for a key. *)
Theorem save_to_database_keeps_constraints
        (db db1 : database) (stats_dict : StatsDict.t)
        (Hwf : well_formed db) (Hids : unique_ids db) (Hkeys : unique_keys db)
        (Hsave : save_to_database db stats_dict = Ok db1) :
  well_formed db1 /\ unique_ids db1 /\ unique_keys db1.
Proof.
  split; [eapply save_to_database_well_formed; eassumption|].
  assert (exists t, strptime (StatsDict.date stats_dict) format_ymd = Ok t)
    as [t Hd].
  { unfold save_to_database in Hsave.
    destruct (strptime (StatsDict.date stats_dict) format_ymd) as [t|e|];
      [exists t; reflexivity | discriminate | discriminate]. }
  destruct (save_to_database_cases db db1 stats_dict t Hd Hsave)
    as [[F ->]|[ex [F ->]]]; unfold unique_ids, unique_keys in *;
    cbn [rows].
  - rewrite !map_app. cbn [map].
    split.
    + apply NoDup_app; [exact Hids | repeat constructor; intros [] |].
      intros x Hx [<-|[]]. cbn [db_stats_of CustomerDailyStats.id] in Hx.
      apply in_map_iff in Hx. destruct Hx as [r [E Hr]].
      unfold well_formed in Hwf. rewrite Forall_forall in Hwf.
      specialize (Hwf r Hr). lia.
    + apply NoDup_app; [exact Hkeys | repeat constructor; intros [] |].
      intros x Hx [<-|[]].
      apply in_map_iff in Hx. destruct Hx as [r [E Hr]].
      pose proof (find_none _ _ F r Hr) as K.
      assert (has_key (StatsDict.customer_id stats_dict) (date_of t) r = true)
        as K' by (apply has_key_iff; exact E).
      congruence.
  - apply find_some in F. destruct F as [Hex _].
    destruct (update_keeps_ids_and_keys db stats_dict ex Hids Hex) as [E1 E2].
    cbv zeta in E1, E2. rewrite E1, E2. split; assumption.
Qed.

Lemma save_to_database_keeps_constraints_witness :
  let db1 := mk_database [overwrite sample_row sample_stats] 2 in
  well_formed db1 /\ unique_ids db1 /\ unique_keys db1.
Proof.
  apply (save_to_database_keeps_constraints (mk_database [sample_row] 2) _
           sample_stats).
  - repeat constructor.
  - repeat constructor. intros [].
  - repeat constructor. intros [].
  - vm_compute. reflexivity.
Defined.

(** X10. [save_to_database] touches only the key it is given: a row with
    another (customer_id, date) key is in the table after the call exactly
    when it was there before, and the number of rows grows by one when the
    key was absent and stays the same when it was present. *)
Theorem save_to_database_other_keys
        (db db1 : database) (stats_dict : StatsDict.t) (t : datetime)
        (Hids : unique_ids db)
        (Hdate : strptime (StatsDict.date stats_dict) format_ymd = Ok t)
        (Hsave : save_to_database db stats_dict = Ok db1) :
  let c := StatsDict.customer_id stats_dict in
  let d := date_of t in
  (forall r, has_key c d r = false ->
             (In r (rows db1) <-> In r (rows db)))
  /\ len (rows db1)
     = len (rows db)
       + (if existsb (has_key c d) (rows db) then 0 else 1).
Proof.
  intros c d.
  destruct (save_to_database_cases db db1 stats_dict t Hdate Hsave)
    as [[F ->]|[ex [F ->]]]; fold c d in F; cbn [rows].
  - split.
    + intros r K. rewrite in_app_iff. split; [|intro H; left; exact H].
      intros [H|[<-|[]]]; [exact H|].
      exfalso.
      assert (has_key c d (db_stats_of (next_id db) (date_of t) stats_dict)
              = true) as T by (apply has_key_iff; reflexivity).
      congruence.
    + assert (existsb (has_key c d) (rows db) = false) as E.
      { apply not_true_is_false. intro E. apply existsb_exists in E.
        destruct E as [r [Hr K]].
        pose proof (find_none _ _ F r Hr). congruence. }
      rewrite E. unfold len. rewrite length_app. cbn [List.length]. lia.
  - pose proof (find_some _ _ F) as [Hex Kex].
    split.
    + intros r K. rewrite in_map_iff. split.
      * intros [r0 [E Hr0]].
        destruct (CustomerDailyStats.id r0 =? CustomerDailyStats.id ex);
          [|subst r0; exact Hr0].
        exfalso. subst r. rewrite has_key_overwrite in K. congruence.
      * intro Hr. exists r. split; [|exact Hr].
        destruct (CustomerDailyStats.id r =? CustomerDailyStats.id ex) eqn:E;
          [|reflexivity].
        exfalso. apply Z.eqb_eq in E.
        rewrite (NoDup_map_inj CustomerDailyStats.id (rows db) r ex Hids Hr Hex E)
          in K.
        congruence.
    + assert (existsb (has_key c d) (rows db) = true) as E
        by (apply existsb_exists; exists ex; split; assumption).
      rewrite E. unfold len. rewrite length_map. lia.
Qed.

Lemma save_to_database_other_keys_witness :
  len (rows (mk_database [overwrite sample_row sample_stats] 2)) = 1.
Proof.
  assert (unique_ids (mk_database [sample_row] 2)) as U
    by (repeat constructor; intros []).
  assert (strptime (StatsDict.date sample_stats) format_ymd
          = Ok (mk_datetime 2024 10 26 0 0 0)) as D
    by (vm_compute; reflexivity).
  assert (save_to_database (mk_database [sample_row] 2) sample_stats
          = Ok (mk_database [overwrite sample_row sample_stats] 2)) as S
    by (vm_compute; reflexivity).
  exact (proj2 (save_to_database_other_keys _ _ sample_stats _ U D S)).
Defined.

Lemma saved_row_present (db db1 : database) (sd : StatsDict.t) (t : datetime) :
  strptime (StatsDict.date sd) format_ymd = Ok t ->
  save_to_database db sd = Ok db1 ->
  exists r,
    In r (rows db1)
    /\ key_of r = (StatsDict.customer_id sd, date_of t)
    /\ holds_measures r sd.
Proof.
  intros Hd H.
  destruct (save_to_database_cases db db1 sd t Hd H) as [[F ->]|[ex [F ->]]];
    cbn [rows].
  - exists (db_stats_of (next_id db) (date_of t) sd).
    split; [apply in_or_app; right; left; reflexivity|].
    split; [reflexivity | repeat split].
  - pose proof (find_some _ _ F) as [Hex Kex].
    exists (overwrite ex sd). split.
    + apply in_map_iff. exists ex. rewrite Z.eqb_refl. split; [reflexivity|exact Hex].
    + split; [|repeat split].
      apply has_key_iff. rewrite has_key_overwrite. exact Kex.
Qed.

(** X11. After [save_to_database] has stored a mapping, the read endpoint
    finds it: for the mapping's customer, and for no [from] or any [from] not
    after the mapping's date, the endpoint does not answer 404 and its
    results contain a row with that customer, that date and the measures of
    the mapping. *)
Theorem saved_stats_are_served
        (db db1 : database) (stats_dict : StatsDict.t) (t : datetime)
        (from_ : option date)
        (Hdate : strptime (StatsDict.date stats_dict) format_ymd = Ok t)
        (Hsave : save_to_database db stats_dict = Ok db1)
        (Hfrom : match from_ with
                 | Some f => date_geb (date_of t) f = true
                 | None => True
                 end) :
  exists results r,
    get_customer_stats db1 (StatsDict.customer_id stats_dict) from_ = Ok results
    /\ In r results
    /\ CustomerDailyStats.customer_id r = StatsDict.customer_id stats_dict
    /\ CustomerDailyStats.date r = date_of t
    /\ holds_measures r stats_dict.
Proof.
  destruct (saved_row_present db db1 stats_dict t Hdate Hsave)
    as [r [Hr [K M]]].
  unfold key_of in K. injection K as Kc Kd.
  unfold get_customer_stats. cbv zeta.
  set (query := match from_ with Some _ => _ | None => _ end).
  assert (query r = true) as Q.
  { unfold query. destruct from_ as [f|].
    - apply andb_true_iff. split; [apply str_eqb_eq; exact Kc|].
      rewrite Kd. exact Hfrom.
    - apply str_eqb_eq. exact Kc. }
  assert (In r (filter query (rows db1))) as Hin
    by (apply filter_In; split; assumption).
  destruct (filter query (rows db1)) as [|x l] eqn:E; [destruct Hin|].
  exists (x :: l), r.
  split; [reflexivity|]. split; [exact Hin|].
  split; [exact Kc|]. split; [exact Kd | exact M].
Qed.

Lemma saved_stats_are_served_witness :
  exists results r,
    get_customer_stats
      (mk_database [db_stats_of 1 (mk_date 2024 10 26) sample_stats] 2)
      (lit "cust_1") (Some (mk_date 2024 10 1))
    = Ok results
    /\ In r results /\ holds_measures r sample_stats.
Proof.
  assert (strptime (StatsDict.date sample_stats) format_ymd
          = Ok (mk_datetime 2024 10 26 0 0 0)) as D
    by (vm_compute; reflexivity).
  assert (save_to_database (mk_database [] 1) sample_stats
          = Ok (mk_database
                  [db_stats_of 1 (mk_date 2024 10 26) sample_stats] 2)) as S
    by (vm_compute; reflexivity).
  destruct (saved_stats_are_served (mk_database [] 1) _ sample_stats _
              (Some (mk_date 2024 10 1)) D S eq_refl)
    as [results [r [G [Hin [_ [_ M]]]]]].
  exists results, r.
  split; [exact G|]. split; [exact Hin | exact M].
Defined.

(** ** From format_stats to the sink *)

Lemma strptime_strftime_ymd (t : datetime) :
  valid_datetime t = true ->
  strptime (strftime_ymd t) format_ymd
  = Ok (mk_datetime (year t) (month t) (day t) 0 0 0).
Proof.
  intro V. pose proof (valid_datetime_bounds t V) as B.
  destruct t as [y m d h mi s]. cbn [year month day hour minute second] in *.
  destruct B as [By [Bm [Bd _]]].
  pose proof (days_in_month_le_31 y m) as D31.
  assert (hd_error
            (match_format format_ymd found_default
               (strftime_ymd (mk_datetime y m d h mi s)))
          = Some (mk_datetime y m d 0 0 0, [])) as Hm.
  { unfold strftime_ymd, format_ymd, lit.
    cbn [year month day list_ascii_of_string].
    rewrite <- ?app_assoc. cbn [app].
    rewrite <- (app_nil_r (zfill2 d)).
    eapply match_format_step; [apply match_dY; lia|].
    eapply match_format_step; [apply match_Lit|].
    eapply match_format_step; [apply match_dm; lia|].
    eapply match_format_step; [apply match_Lit|].
    eapply match_format_step; [apply match_dd; lia|].
    reflexivity. }
  unfold strptime.
  destruct (match_format format_ymd found_default _) as [|[found rest] l];
    [discriminate|].
  cbn [hd_error] in Hm. inversion Hm; subst found rest.
  assert (valid_datetime (mk_datetime y m d 0 0 0) = true) as V'.
  { unfold valid_datetime in *. cbn [year month day hour minute second] in *.
    rewrite !andb_true_iff in *. rewrite !Z.leb_le in *. lia. }
  rewrite V'. reflexivity.
Qed.

(** X12. A bucket that [format_stats] has turned into a mapping can always
    be stored: when the first entry's timestamp is valid with a four-digit
    year, the date string of the mapping is parsed back by
    [save_to_database] to the first entry's calendar date, the call does not
    raise, and afterwards the table holds a row with the first entry's
    customer, that date, the uptime of the bucket, and request counts that add
    up to the number of entries. *)
Theorem format_stats_then_save
        (now : datetime) (key : str) (offset : Z)
        (e0 : LogEntry) (rest : list LogEntry) (db : database)
        (Hvalid : valid_datetime (timestamp e0) = true)
        (Hyear : 1000 <= year (timestamp e0)) :
  exists stats_dict db1 r,
    format_stats now (key, (offset, e0 :: rest)) = Ok stats_dict
    /\ save_to_database db stats_dict = Ok db1
    /\ In r (rows db1)
    /\ CustomerDailyStats.customer_id r = customer_id e0
    /\ CustomerDailyStats.date r = date_of (timestamp e0)
    /\ holds_measures r stats_dict
    /\ CustomerDailyStats.successful_requests r
       + CustomerDailyStats.failed_requests r = len (e0 :: rest)
    /\ CustomerDailyStats.uptime_percentage r
       = calculate_uptime_percentage (e0 :: rest).
Proof.
  destruct (format_stats_defined now key offset (e0 :: rest))
    as [avg [med [p99 F]]].
  set (sd := StatsDict.mk (customer_id e0) (strftime_ymd (timestamp e0))
               (len (filter is_success (e0 :: rest)))
               (len (filter (fun e => negb (is_success e)) (e0 :: rest)))
               (calculate_uptime_percentage (e0 :: rest)) avg med p99) in *.
  pose proof (strptime_strftime_ymd (timestamp e0) Hvalid) as D.
  assert (exists db1, save_to_database db sd = Ok db1) as [db1 S].
  { unfold save_to_database. cbn [StatsDict.date sd]. rewrite D. cbn [bind].
    destruct (find _ (rows db)); eexists; reflexivity. }
  destruct (saved_row_present db db1 sd _ D S) as [r [Hr [K M]]].
  unfold key_of in K. injection K as Kc Kd.
  exists sd, db1, r.
  split; [exact F|]. split; [exact S|]. split; [exact Hr|].
  split; [exact Kc|]. split; [exact Kd|]. split; [exact M|].
  destruct M as [M1 [M2 [M3 _]]]. rewrite M1, M2, M3.
  split; [apply filter_partition_length | reflexivity].
Qed.

Lemma format_stats_then_save_witness :
  exists stats_dict db1 r,
    format_stats midnight
      (lit "cust_2_2024-10-26", (0, [entry_at 0 200; entry_at 1 500]))
    = Ok stats_dict
    /\ save_to_database (mk_database [] 1) stats_dict = Ok db1
    /\ In r (rows db1)
    /\ CustomerDailyStats.date r = mk_date 2024 10 26.
Proof.
  destruct (format_stats_then_save midnight (lit "cust_2_2024-10-26") 0
              (entry_at 0 200) [entry_at 1 500] (mk_database [] 1)
              eq_refl ltac:(vm_compute; discriminate))
    as [sd [db1 [r [F [S [Hr [_ [Kd _]]]]]]]].
  exists sd, db1, r.
  split; [exact F|]. split; [exact S|]. split; [exact Hr | exact Kd].
Defined.

(** ** Latency statistics of a bucket *)









(** ** Order of timestamps *)

Lemma days_before_year_next (y : Z) :
  days_before_year y + 365 + (if is_leap y then 1 else 0)
  <= days_before_year (y + 1).
Proof.
  unfold days_before_year, is_leap. cbv zeta.
  replace (y + 1 - 1) with y by lia.
  pose proof (Z.div_mod y 4 ltac:(lia)).
  pose proof (Z.div_mod y 100 ltac:(lia)).
  pose proof (Z.div_mod y 400 ltac:(lia)).
  pose proof (Z.div_mod (y - 1) 4 ltac:(lia)).
  pose proof (Z.div_mod (y - 1) 100 ltac:(lia)).
  pose proof (Z.div_mod (y - 1) 400 ltac:(lia)).
  pose proof (Z.mod_pos_bound y 4 ltac:(lia)).
  pose proof (Z.mod_pos_bound y 100 ltac:(lia)).
  pose proof (Z.mod_pos_bound y 400 ltac:(lia)).
  pose proof (Z.mod_pos_bound (y - 1) 4 ltac:(lia)).
  pose proof (Z.mod_pos_bound (y - 1) 100 ltac:(lia)).
  pose proof (Z.mod_pos_bound (y - 1) 400 ltac:(lia)).
  destruct (y mod 4 =? 0) eqn:E4; [apply Z.eqb_eq in E4 | cbn [andb]; lia].
  destruct (y mod 100 =? 0) eqn:E100; cbn [andb negb orb].
  - apply Z.eqb_eq in E100.
    destruct (y mod 400 =? 0) eqn:E400; [apply Z.eqb_eq in E400|]; lia.
  - apply Z.eqb_neq in E100. lia.
Qed.

Lemma days_before_year_mono (y y' : Z) :
  y <= y' -> days_before_year y <= days_before_year y'.
Proof.
  intro H. unfold days_before_year. cbv zeta.
  pose proof (Z.div_le_mono (y - 1) (y' - 1) 4 ltac:(lia) ltac:(lia)).
  pose proof (Z.div_le_mono (y - 1) (y' - 1) 400 ltac:(lia) ltac:(lia)).
  pose proof (Z.div_mod (y - 1) 100 ltac:(lia)).
  pose proof (Z.div_mod (y' - 1) 100 ltac:(lia)).
  pose proof (Z.mod_pos_bound (y - 1) 100 ltac:(lia)).
  pose proof (Z.mod_pos_bound (y' - 1) 100 ltac:(lia)).
  lia.
Qed.

Lemma month_cases (m : Z) :
  1 <= m <= 12 ->
  m = 1 \/ m = 2 \/ m = 3 \/ m = 4 \/ m = 5 \/ m = 6 \/ m = 7 \/ m = 8
  \/ m = 9 \/ m = 10 \/ m = 11 \/ m = 12.
Proof. lia. Qed.

Ltac month_tables :=
  repeat match goal with
         | |- context [Z.to_nat ?k] =>
             let v := eval vm_compute in (Z.to_nat k) in
             change (Z.to_nat k) with v
         | H : context [Z.to_nat ?k] |- _ =>
             let v := eval vm_compute in (Z.to_nat k) in
             change (Z.to_nat k) with v in H
         | |- context [Z.eqb ?a ?b] =>
             let v := eval vm_compute in (Z.eqb a b) in
             change (Z.eqb a b) with v
         | H : context [Z.eqb ?a ?b] |- _ =>
             let v := eval vm_compute in (Z.eqb a b) in
             change (Z.eqb a b) with v in H
         | |- context [Z.ltb ?a ?b] =>
             let v := eval vm_compute in (Z.ltb a b) in
             change (Z.ltb a b) with v
         | H : context [Z.ltb ?a ?b] |- _ =>
             let v := eval vm_compute in (Z.ltb a b) in
             change (Z.ltb a b) with v in H
         end;
  cbn [nth andb] in *.

Lemma day_of_year_bounds (y m d : Z) :
  1 <= m <= 12 -> 1 <= d <= days_in_month y m ->
  1 <= days_before_month y m + d <= 365 + (if is_leap y then 1 else 0).
Proof.
  intros Hm Hd. unfold days_before_month, days_in_month in *.
  destruct (is_leap y);
    destruct (month_cases m Hm)
      as [->|[->|[->|[->|[->|[->|[->|[->|[->|[->|[->| ->]]]]]]]]]]];
    month_tables; lia.
Qed.

Lemma day_of_year_lt (y m d m' d' : Z) :
  1 <= m <= 12 -> 1 <= m' <= 12 ->
  1 <= d <= days_in_month y m -> 1 <= d' <= days_in_month y m' ->
  m < m' ->
  days_before_month y m + d < days_before_month y m' + d'.
Proof.
  intros Hm Hm' Hd Hd' Hlt. unfold days_before_month, days_in_month in *.
  destruct (is_leap y);
    destruct (month_cases m Hm)
      as [->|[->|[->|[->|[->|[->|[->|[->|[->|[->|[->| ->]]]]]]]]]]];
    destruct (month_cases m' Hm')
      as [->|[->|[->|[->|[->|[->|[->|[->|[->|[->|[->| ->]]]]]]]]]]];
    month_tables; lia.
Qed.

Lemma instant_lt_of_datetime_lt (a b : datetime) :
  valid_datetime a = true -> valid_datetime b = true ->
  datetime_lt a b -> instant a < instant b.
Proof.
  intros Va Vb H.
  destruct (valid_datetime_bounds a Va) as [Ay [Am [Ad [Ah [Ami As]]]]].
  destruct (valid_datetime_bounds b Vb) as [By [Bm [Bd [Bh [Bmi Bs]]]]].
  pose proof (day_of_year_bounds (year a) (month a) (day a) Am Ad) as Da.
  pose proof (day_of_year_bounds (year b) (month b) (day b) Bm Bd) as Db.
  unfold instant, toordinal, ymd2ord.
  destruct H as [Hy|[Ey [Hm|[Em [Hd|[Ed Ht]]]]]].
  - pose proof (days_before_year_next (year a)) as N.
    pose proof (days_before_year_mono (year a + 1) (year b) ltac:(lia)) as M.
    lia.
  - rewrite Ey in *.
    pose proof (day_of_year_lt (year b) (month a) (day a) (month b) (day b)
                  Am Bm Ad Bd Hm).
    lia.
  - rewrite Ey, Em in *. lia.
  - rewrite Ey, Em, Ed in *. lia.
Qed.

Lemma datetime_trichotomy (a b : datetime) :
  datetime_lt a b \/ a = b \/ datetime_lt b a.
Proof.
  destruct a as [y m d h mi s], b as [y' m' d' h' mi' s'].
  unfold datetime_lt. cbn [year month day hour minute second].
  destruct (Z.lt_trichotomy y y') as [?|[->|?]]; [lia| |lia].
  destruct (Z.lt_trichotomy m m') as [?|[->|?]]; [lia| |lia].
  destruct (Z.lt_trichotomy d d') as [?|[->|?]]; [lia| |lia].
  destruct (Z.lt_trichotomy h h') as [?|[->|?]]; [lia| |lia].
  destruct (Z.lt_trichotomy mi mi') as [?|[->|?]]; [lia| |lia].
  destruct (Z.lt_trichotomy s s') as [?|[->|?]]; [lia| |lia].
  right. left. reflexivity.
Qed.

(** X14. Subtracting timestamps agrees with comparing them: for two valid
    timestamps, [(b - a).total_seconds()] is positive exactly when [a < b] in
    the order of datetimes, and zero exactly when they are equal.  So the
    estimator adds a negative amount to the downtime only when it meets
    entries out of order. *)
Theorem total_seconds_agrees_with_order (a b : datetime)
        (Ha : valid_datetime a = true) (Hb : valid_datetime b = true) :
  ((0 < total_seconds (datetime_sub b a))%Q <-> datetime_lt a b)
  /\ ((total_seconds (datetime_sub b a) == 0)%Q <-> a = b).
Proof.
  rewrite total_seconds_sub.
  change 0%Q with (inject_Z 0). rewrite <- Zlt_Qlt, inject_Z_injective.
  pose proof (instant_lt_of_datetime_lt a b Ha Hb) as L1.
  pose proof (instant_lt_of_datetime_lt b a Hb Ha) as L2.
  destruct (datetime_trichotomy a b) as [H|[H|H]].
  - specialize (L1 H). split; split; intro; try lia; try assumption.
    subst b. lia.
  - subst b. split; split; intro; try lia; try reflexivity.
    exfalso. pose proof (datetime_trichotomy a a).
    assert (instant a < instant a) by (apply L1; assumption). lia.
  - specialize (L2 H). split; split; intro; try lia.
    + exfalso.
      assert (instant a < instant b) by (apply L1; assumption). lia.
    + subst b. lia.
Qed.

Lemma total_seconds_agrees_with_order_witness :
  (0 < total_seconds (datetime_sub (mk_datetime 2024 3 1 0 0 0)
                                   (mk_datetime 2024 2 29 23 59 59)))%Q
  <-> datetime_lt (mk_datetime 2024 2 29 23 59 59) (mk_datetime 2024 3 1 0 0 0).
Proof.
  apply (total_seconds_agrees_with_order
           (mk_datetime 2024 2 29 23 59 59) (mk_datetime 2024 3 1 0 0 0));
    vm_compute; reflexivity.
Defined.

(** ** Windows of the dataflow *)

Lemma window_of_ordinal (t : datetime) :
  valid_datetime t = true ->
  window_of t = toordinal t - toordinal align_to.
Proof.
  intro V. destruct (valid_datetime_bounds t V) as [_ [_ [_ [Hh [Hm Hs]]]]].
  unfold window_of, window_length, instant.
  change (hour align_to) with 0. change (minute align_to) with 0.
  change (second align_to) with 0.
  symmetry.
  apply (Z.div_unique _ _ _ (hour t * 3600 + minute t * 60 + second t)); lia.
Qed.

Lemma toordinal_inj (a b : datetime) :
  valid_datetime a = true -> valid_datetime b = true ->
  toordinal a = toordinal b -> date_of a = date_of b.
Proof.
  intros Va Vb E.
  set (a0 := mk_datetime (year a) (month a) (day a) 0 0 0).
  set (b0 := mk_datetime (year b) (month b) (day b) 0 0 0).
  assert (valid_datetime a0 = true) as Va0.
  { unfold valid_datetime in *. cbn [a0 year month day hour minute second].
    rewrite !andb_true_iff in *. rewrite !Z.leb_le in *. lia. }
  assert (valid_datetime b0 = true) as Vb0.
  { unfold valid_datetime in *. cbn [b0 year month day hour minute second].
    rewrite !andb_true_iff in *. rewrite !Z.leb_le in *. lia. }
  assert (instant a0 = instant b0) as Ei.
  { unfold instant, toordinal in *. cbn [a0 b0 year month day hour minute second].
    lia. }
  destruct (datetime_trichotomy a0 b0) as [H|[H|H]].
  - pose proof (instant_lt_of_datetime_lt a0 b0 Va0 Vb0 H). lia.
  - unfold date_of. unfold a0, b0 in H. inversion H. reflexivity.
  - pose proof (instant_lt_of_datetime_lt b0 a0 Vb0 Va0 H). lia.
Qed.

(** X15. The windows of the dataflow are the calendar days: [align_to] is a
    midnight and the length is one day, so the window of a valid timestamp is
    the number of days from 2024-11-07 to its date, and two valid timestamps
    fall in the same window exactly when they have the same date.  Hence all
    entries that share a [customer_date_event] key fall in one window. *)
Theorem windows_are_calendar_days (a b : LogEntry)
        (Ha : valid_datetime (timestamp a) = true)
        (Hb : valid_datetime (timestamp b) = true) :
  window_of (timestamp a) = toordinal (timestamp a) - toordinal align_to
  /\ (window_of (timestamp a) = window_of (timestamp b)
      <-> date_of (timestamp a) = date_of (timestamp b))
  /\ (fst (customer_date_event a) = fst (customer_date_event b) ->
      window_of (timestamp a) = window_of (timestamp b)).
Proof.
  pose proof (window_of_ordinal (timestamp a) Ha) as Wa.
  pose proof (window_of_ordinal (timestamp b) Hb) as Wb.
  assert (window_of (timestamp a) = window_of (timestamp b)
          <-> date_of (timestamp a) = date_of (timestamp b)) as W.
  { rewrite Wa, Wb. split.
    - intro E. apply toordinal_inj; [exact Ha | exact Hb | lia].
    - intro E. unfold toordinal, date_of in *. inversion E. lia. }
  split; [exact Wa|]. split; [exact W|].
  intro K. apply W. unfold customer_date_event in K. cbn [fst] in K.
  apply app_same_length_inj in K; [|reflexivity].
  destruct K as [_ Kd]. apply (f_equal (@tl ascii)) in Kd.
  apply date_isoformat_inj; assumption.
Qed.

Lemma windows_are_calendar_days_witness :
  window_of (timestamp (entry_at 1 200))
  = toordinal (timestamp (entry_at 1 200)) - toordinal align_to.
Proof.
  apply (windows_are_calendar_days (entry_at 1 200) (entry_at 5 500));
    vm_compute; reflexivity.
Defined.

(** ** Signed numbers in a line *)






